(** * The preferences dialog of the desktop Git client

    A shallow embedding of [app/src/ui/preferences/preferences.tsx]: the
    component state, the loading done by [componentWillMount], the edit
    handlers and the save handler [onSave], together with the calls they
    make on the injected collaborators. *)

From stdpp Require Import base strings list gmap.

Local Open Scope string_scope.
Local Open Scope list_scope.

(** ** JavaScript values used by the component *)

(** A value of type [string | null] is an [option string]; [null] is [None]. *)

(** Truthiness of a [string | null]: [null] and the empty string are falsy. *)
Definition truthy (v : option string) : bool :=
  match v with
  | Some s => bool_decide (s ≠ "")
  | None => false
  end.

(** [a || b] where [a : string | null]. *)
Definition or_else {A} (a : option string) (inj : string -> A) (b : A) : A :=
  match a with
  | Some s => if bool_decide (s ≠ "") then inj s else b
  | None => b
  end.

(** [a || ''], of type [string]. *)
Definition or_empty (a : option string) : string := or_else a id "".

(** [a !== b] where [a : string] and [b : string | null]. *)
Definition strict_ne (a : string) (b : option string) : bool :=
  bool_decide (Some a ≠ b).

(** String concatenation with a [string | null] operand: [null] prints as
    the four letters of its name. *)
Definition to_js_string (v : option string) : string := default "null" v.

(** ** What the module imports *)

(** The types and helpers the file imports from the rest of the application.
    Only their signatures matter to the dialog. *)
Class Imports := {
  Account : Type;
  login : Account -> string;
  lookupPreferredEmail : Account -> option string;
  Repository : Type;
  Shell : Type;
  ApplicationTheme : Type;
  UncommittedChangesStrategy : Type;
  defaultUncommittedChangesStrategy : UncommittedChangesStrategy;
  Error : Type;
  IGitResult : Type;
  result : Error -> IGitResult;
  isConfigFileLockError : Error -> bool;
  parseConfigLockFilePathFromError : IGitResult -> option string;
  gitAuthorNameIsValid : string -> bool;
  InvalidGitAuthorNameMessage : string;
  FoundEditor : Type;
  editor : FoundEditor -> string;
  FoundShell : Type;
  shell : FoundShell -> Shell;
}.

(** The tabs, in the order in which [render] lists them. *)
Inductive PreferencesTab :=
  | Accounts | Integrations | Git | Appearance | Prompts | Advanced.

(** ** Properties and state *)

Module props.
Section Props.
Context `{Imports}.

(** [IPreferencesProps]; the [dispatcher] and [onDismissed] members are
    collaborators and appear as calls, see [Call] below. *)
Record t := {
  dotComAccount : option Account;
  enterpriseAccount : option Account;
  repository : option Repository;
  optOutOfUsageTracking : bool;
  initialSelectedTab : option PreferencesTab;
  confirmRepositoryRemoval : bool;
  confirmDiscardChanges : bool;
  confirmForcePush : bool;
  uncommittedChangesStrategy : UncommittedChangesStrategy;
  selectedExternalEditor : option string;
  selectedShell : Shell;
  selectedTheme : ApplicationTheme;
  repositoryIndicatorsEnabled : bool;
}.
End Props.
End props.

Section StateDef.
Context `{Imports}.

(** [IPreferencesState]. [existingLockFilePath] is optional: [undefined]
    is [None]. *)
Record IPreferencesState := {
  selectedIndex : PreferencesTab;
  committerName : string;
  committerEmail : string;
  defaultBranch : string;
  mergeToolName : string;
  mergeToolCommand : string;
  initialCommitterName : option string;
  initialCommitterEmail : option string;
  initialDefaultBranch : option string;
  initialMergeToolName : option string;
  initialMergeToolCommand : option string;
  initialUseCustomMergeTool : bool;
  disallowedCharactersMessage : option string;
  optOutOfUsageTracking : bool;
  confirmRepositoryRemoval : bool;
  confirmDiscardChanges : bool;
  confirmForcePush : bool;
  useCustomMergeTool : bool;
  uncommittedChangesStrategy : UncommittedChangesStrategy;
  availableEditors : list string;
  selectedExternalEditor : option string;
  availableShells : list Shell;
  selectedShell : Shell;
  existingLockFilePath : option string;
  repositoryIndicatorsEnabled : bool;
}.

(** The state rebuilt from its own fields; [with_field] derives the
    single-field updates of [setState] from it. *)
Definition state_eta (s : IPreferencesState) : IPreferencesState :=
  {| selectedIndex := selectedIndex s;
     committerName := committerName s;
     committerEmail := committerEmail s;
     defaultBranch := defaultBranch s;
     mergeToolName := mergeToolName s;
     mergeToolCommand := mergeToolCommand s;
     initialCommitterName := initialCommitterName s;
     initialCommitterEmail := initialCommitterEmail s;
     initialDefaultBranch := initialDefaultBranch s;
     initialMergeToolName := initialMergeToolName s;
     initialMergeToolCommand := initialMergeToolCommand s;
     initialUseCustomMergeTool := initialUseCustomMergeTool s;
     disallowedCharactersMessage := disallowedCharactersMessage s;
     optOutOfUsageTracking := optOutOfUsageTracking s;
     confirmRepositoryRemoval := confirmRepositoryRemoval s;
     confirmDiscardChanges := confirmDiscardChanges s;
     confirmForcePush := confirmForcePush s;
     useCustomMergeTool := useCustomMergeTool s;
     uncommittedChangesStrategy := uncommittedChangesStrategy s;
     availableEditors := availableEditors s;
     selectedExternalEditor := selectedExternalEditor s;
     availableShells := availableShells s;
     selectedShell := selectedShell s;
     existingLockFilePath := existingLockFilePath s;
     repositoryIndicatorsEnabled := repositoryIndicatorsEnabled s |}.

(** [this.setState({ field: v })] for one field. *)
Class FieldUpdate {T} (field : IPreferencesState -> T) :=
  update : T -> IPreferencesState -> IPreferencesState.
Global Arguments update {T} field {_} v s /.

Ltac with_field field :=
  let body := eval cbv delta [state_eta] in state_eta in
  lazymatch eval pattern field in body with
  | ?g _ =>
      let upd := eval cbv beta in (fun v s => g (fun _ => v) s) in exact upd
  end.

Global Instance upd_selectedIndex : FieldUpdate selectedIndex :=
  ltac:(with_field selectedIndex).
Global Instance upd_committerName : FieldUpdate committerName :=
  ltac:(with_field committerName).
Global Instance upd_committerEmail : FieldUpdate committerEmail :=
  ltac:(with_field committerEmail).
Global Instance upd_defaultBranch : FieldUpdate defaultBranch :=
  ltac:(with_field defaultBranch).
Global Instance upd_mergeToolName : FieldUpdate mergeToolName :=
  ltac:(with_field mergeToolName).
Global Instance upd_mergeToolCommand : FieldUpdate mergeToolCommand :=
  ltac:(with_field mergeToolCommand).
Global Instance upd_disallowedCharactersMessage :
  FieldUpdate disallowedCharactersMessage :=
  ltac:(with_field disallowedCharactersMessage).
Global Instance upd_optOutOfUsageTracking : FieldUpdate optOutOfUsageTracking :=
  ltac:(with_field optOutOfUsageTracking).
Global Instance upd_confirmRepositoryRemoval :
  FieldUpdate confirmRepositoryRemoval :=
  ltac:(with_field confirmRepositoryRemoval).
Global Instance upd_confirmDiscardChanges : FieldUpdate confirmDiscardChanges :=
  ltac:(with_field confirmDiscardChanges).
Global Instance upd_confirmForcePush : FieldUpdate confirmForcePush :=
  ltac:(with_field confirmForcePush).
Global Instance upd_useCustomMergeTool : FieldUpdate useCustomMergeTool :=
  ltac:(with_field useCustomMergeTool).
Global Instance upd_uncommittedChangesStrategy :
  FieldUpdate uncommittedChangesStrategy :=
  ltac:(with_field uncommittedChangesStrategy).
Global Instance upd_selectedExternalEditor :
  FieldUpdate selectedExternalEditor :=
  ltac:(with_field selectedExternalEditor).
Global Instance upd_selectedShell : FieldUpdate selectedShell :=
  ltac:(with_field selectedShell).
Global Instance upd_existingLockFilePath : FieldUpdate existingLockFilePath :=
  ltac:(with_field existingLockFilePath).
Global Instance upd_repositoryIndicatorsEnabled :
  FieldUpdate repositoryIndicatorsEnabled :=
  ltac:(with_field repositoryIndicatorsEnabled).
End StateDef.

Notation "s <| field := v |>" := (update field v s)
  (at level 1, left associativity, format "s  <| field  :=  v |>").

(** ** Calls on the collaborators *)

(** The calls the component makes: on the global Git configuration
    ([lib/git/config], [lib/helpers/default-branch]), on the [dispatcher],
    and the [onDismissed] callback. *)
Inductive Call `{Imports} :=
  | setGlobalConfigValue (name value : string)
  | removeGlobalConfigValue (name : string)
  | setDefaultBranch (branchName : string)
  | refreshAuthor (r : Repository)
  | setRepositoryIndicatorsEnabled (b : bool)
  | setStatsOptOut (optOut userViewedPrompt : bool)
  | setConfirmRepoRemovalSetting (b : bool)
  | setConfirmForcePushSetting (b : bool)
  | setExternalEditor (e : string)
  | setShell (sh : Shell)
  | setConfirmDiscardChangesSetting (b : bool)
  | setUncommittedChangesStrategySetting (st : UncommittedChangesStrategy)
  | setSelectedTheme (theme : ApplicationTheme)
  | removeAccount (a : Account)
  | showDotComSignInDialog
  | showEnterpriseSignInDialog
  | postError (e : Error)
  | onDismissed.

(** What a handler got from a call: [None] when the handler went on after
    it, [Some e] when [e] was thrown at the call (by the call itself or, at
    an [await], by the rejection of its promise). *)
Abbreviation Response := (option Error).

(** The calls made so far, oldest first, each with its answer. *)
Abbreviation Log := (list (Call * Response)).

Section Collaborators.
Context `{Imports}.

(** Writes to the configuration store. *)
Definition is_config_write (c : Call) : bool :=
  match c with
  | setGlobalConfigValue _ _ | removeGlobalConfigValue _ | setDefaultBranch _ =>
      true
  | _ => false
  end.

(** Calls made inside the [try] block of [onSave]. *)
Definition in_try_block (c : Call) : bool :=
  match c with
  | refreshAuthor _ | setRepositoryIndicatorsEnabled _ => true
  | _ => is_config_write c
  end.

(** The dispatcher setters [onSave] awaits after the [try] block. *)
Definition is_setting_write (c : Call) : bool :=
  match c with
  | setStatsOptOut _ _ | setConfirmRepoRemovalSetting _
  | setConfirmForcePushSetting _ | setExternalEditor _ | setShell _
  | setConfirmDiscardChangesSetting _
  | setUncommittedChangesStrategySetting _ => true
  | _ => false
  end.

(** Every call that changes something a collaborator owns. Reporting an
    error, dismissing the dialog and opening a sign-in dialog change
    nothing. *)
Definition is_write (c : Call) : bool :=
  match c with
  | setSelectedTheme _ | removeAccount _ => true
  | _ => in_try_block c || is_setting_write c
  end.

Definition is_dismissal (c : Call) : bool :=
  match c with onDismissed => true | _ => false end.

Definition is_error_report (c : Call) : bool :=
  match c with postError _ => true | _ => false end.

(** How a call of a collaborator ends: it returns (a value, or a promise
    that is fulfilled), it throws before it returns, or it returns a promise
    that is rejected. *)
Inductive Answer :=
  | Returned
  | Threw (e : Error)
  | Rejected (e : Error).

(** What the caller gets from an answer. [await f()] throws what [f] throws
    and what its promise is rejected with; a bare [f()] throws only what [f]
    throws, the promise is dropped and its rejection reaches nobody. *)
Definition observe (awaited : bool) (a : Answer) : Response :=
  match a with
  | Returned => None
  | Threw e => Some e
  | Rejected e => if awaited then Some e else None
  end.

(** Whether [onSave] awaits a call it makes: it awaits them all but
    [refreshAuthor] (line 500) and [setRepositoryIndicatorsEnabled] (lines
    521-523). *)
Definition is_awaited (c : Call) : bool :=
  match c with
  | refreshAuthor _ | setRepositoryIndicatorsEnabled _ => false
  | _ => true
  end.

(** The collaborators: they answer a call knowing everything that was
    called before. *)
Definition Collaborators := Log -> Call -> Answer.

(** A collaborator that never fails. *)
Definition reliable : Collaborators := fun _ _ => Returned.

(** The collaborators [world], but with every promise that [onSave] drops
    fulfilled instead of rejected. *)
Definition fulfilling_dropped (world : Collaborators) : Collaborators :=
  fun log c =>
    match world log c with
    | Rejected e => if is_awaited c then Rejected e else Returned
    | a => a
    end.

(** The log holds, for every write, what the handler got from the answer of
    the collaborators. *)
Definition answered (world : Collaborators) (log : Log) : Prop :=
  ∀ log1 c r log2,
    log = log1 ++ (c, r) :: log2 →
    is_write c = true →
    r = observe (is_awaited c) (world log1 c).

Definition calls (log : Log) : list Call := log.*1.

(** The logged calls that satisfy [f], in the order of the log. *)
Definition logged (f : Call -> bool) (log : Log) : list Call :=
  filter (λ c, f c) (calls log).

Definition count (f : Call -> bool) (log : Log) : nat :=
  length (logged f log).

Definition failed (log : Log) (c : Call) (e : Error) : Prop :=
  (c, Some e) ∈ log.

(** ** The monad of handlers *)

Inductive outcome (A : Type) :=
  | Ret (a : A)
  | Throw (e : Error).
Global Arguments Ret {A} a.
Global Arguments Throw {A} e.

(** A handler extends the log and either returns or throws. *)
Definition M (A : Type) : Type := Log -> outcome A * Log.

Global Instance M_ret : MRet M := fun A a log => (Ret a, log).

Global Instance M_bind : MBind M := fun A B k m log =>
  match m log with
  | (Ret a, log') => k a log'
  | (Throw e, log') => (Throw e, log')
  end.

(** [try { m } catch (e) { h e }]. *)
Definition try_catch {A} (m : M A) (h : Error -> M A) : M A := fun log =>
  match m log with
  | (Ret a, log') => (Ret a, log')
  | (Throw e, log') => h e log'
  end.

(** [if (b) { m }]. *)
Definition when (b : bool) (m : M unit) : M unit := if b then m else mret tt.

(** A call on a reporting channel ([onDismissed], [postError], the sign-in
    dialogs): it is logged and returns. *)
Definition tell (c : Call) : M unit := fun log => (Ret tt, log ++ [(c, None)]).

Section WithCollaborators.
Variable world : Collaborators.

(** A call whose answer the collaborators decide: a write to the
    configuration or a dispatcher method. The call is logged with what the
    handler got from it. *)
Definition issue (awaited : bool) (c : Call) : M unit := fun log =>
  let r := observe awaited (world log c) in
  (match r with None => Ret tt | Some e => Throw e end, log ++ [(c, r)]).

(** [await f(...)]. *)
Definition call : Call -> M unit := issue true.

(** [f(...)] as a statement of its own: what it returns is dropped. *)
Definition fire : Call -> M unit := issue false.

(** Calls made one after the other, each the way [onSave] makes it, up to
    the first that throws. *)
Fixpoint call_all (cs : list Call) : M unit :=
  match cs with
  | [] => mret tt
  | c :: cs' => issue (is_awaited c) c;; call_all cs'
  end.

(** *** [onSave] *)

(** The body of the [try] block. *)
Definition onSave_try (p : props.t) (s : IPreferencesState) : M unit :=
  let shouldRefreshAuthor := false in
  shouldRefreshAuthor ←
    (if strict_ne (committerName s) (initialCommitterName s)
     then call (setGlobalConfigValue "user.name" (committerName s));; mret true
     else mret shouldRefreshAuthor);
  shouldRefreshAuthor ←
    (if strict_ne (committerEmail s) (initialCommitterEmail s)
     then call (setGlobalConfigValue "user.email" (committerEmail s));; mret true
     else mret shouldRefreshAuthor);
  match props.repository p with
  | Some r => when shouldRefreshAuthor (fire (refreshAuthor r))
  | None => mret tt
  end;;
  when (bool_decide (0 < String.length (defaultBranch s))
        && strict_ne (defaultBranch s) (initialDefaultBranch s))
    (call (setDefaultBranch (defaultBranch s)));;
  when (bool_decide (props.repositoryIndicatorsEnabled p
                     ≠ repositoryIndicatorsEnabled s))
    (fire (setRepositoryIndicatorsEnabled (repositoryIndicatorsEnabled s)));;
  when (bool_decide (useCustomMergeTool s ≠ initialUseCustomMergeTool s)
        || strict_ne (mergeToolName s) (initialMergeToolName s)
        || strict_ne (mergeToolCommand s) (initialMergeToolCommand s))
    (when (strict_ne (mergeToolName s) (initialMergeToolName s)
           && bool_decide (mergeToolName s ≠ ""))
       (call (setGlobalConfigValue "merge.tool" (mergeToolName s)));;
     when (strict_ne (mergeToolCommand s) (initialMergeToolCommand s)
           && bool_decide (mergeToolCommand s ≠ ""))
       (call (setGlobalConfigValue
                ("mergetool." +:+ mergeToolName s +:+ ".cmd")
                (mergeToolCommand s)));;
     when (bool_decide (useCustomMergeTool s = false))
       (call (removeGlobalConfigValue "merge.tool");;
        call (removeGlobalConfigValue
                ("mergetool" +:+ to_js_string (initialMergeToolName s)
                 +:+ ".cmd")))).

(** How the [try]/[catch] statement ends: the handler goes on after it, or
    it has returned from [onSave] with the given state. *)
Inductive completion :=
  | GoOn
  | Return (s : IPreferencesState).

(** The [catch] clause. *)
Definition onSave_catch (s : IPreferencesState) (e : Error) : M completion :=
  let dismiss :=
    tell onDismissed;;
    tell (postError e);;
    mret (Return s) in
  if isConfigFileLockError e then
    match parseConfigLockFilePathFromError (result e) with
    | Some lockFilePath =>
        mret (Return (s <| existingLockFilePath := Some lockFilePath |>
                        <| selectedIndex := Git |>))
    | None => dismiss
    end
  else dismiss.

(** The settings written after the [try] statement. *)
Definition onSave_settings (s : IPreferencesState) : M unit :=
  call (setStatsOptOut (optOutOfUsageTracking s) false);;
  call (setConfirmRepoRemovalSetting (confirmRepositoryRemoval s));;
  call (setConfirmForcePushSetting (confirmForcePush s));;
  or_else (selectedExternalEditor s)
    (fun e => call (setExternalEditor e)) (mret tt);;
  call (setShell (selectedShell s));;
  call (setConfirmDiscardChangesSetting (confirmDiscardChanges s));;
  call (setUncommittedChangesStrategySetting (uncommittedChangesStrategy s)).

(** The save handler. It returns the state of the component when the
    handler is done; it throws when the promise of [onSave] is rejected. *)
Definition onSave (p : props.t) (s : IPreferencesState) : M IPreferencesState :=
  c ← try_catch (onSave_try p s;; mret GoOn) (onSave_catch s);
  match c with
  | Return s' => mret s'
  | GoOn =>
      onSave_settings s;;
      tell onDismissed;;
      mret s
  end.

End WithCollaborators.
End Collaborators.

(** ** The configuration store *)

Section Loading.
Context `{Imports}.

(** Modelled from the spec: the configuration store behind
    [getGlobalConfigValue], [setGlobalConfigValue],
    [removeGlobalConfigValue], [getDefaultBranch] and [setDefaultBranch]
    ([lib/git/config] and [lib/helpers/default-branch] are not among the
    sources). The spec gives it the contract of a key-value store,
    get(key) -> value or null, set(key, value), remove(key), and keeps the
    default branch behind its own getter and setter. *)
Record Store := {
  globalConfig : gmap string string;
  storedDefaultBranch : string;
}.

Definition getGlobalConfigValue (st : Store) (name : string) : option string :=
  globalConfig st !! name.

Definition getDefaultBranch (st : Store) : string := storedDefaultBranch st.

(** The effect of a call that returned; only the configuration writes
    change the store. *)
Definition commit (st : Store) (c : Call) : Store :=
  match c with
  | setGlobalConfigValue name value =>
      {| globalConfig := <[name := value]> (globalConfig st);
         storedDefaultBranch := storedDefaultBranch st |}
  | removeGlobalConfigValue name =>
      {| globalConfig := delete name (globalConfig st);
         storedDefaultBranch := storedDefaultBranch st |}
  | setDefaultBranch branchName =>
      {| globalConfig := globalConfig st; storedDefaultBranch := branchName |}
  | _ => st
  end.

(** The store after the calls of a log; a call that threw changed nothing. *)
Definition replay (log : Log) (st : Store) : Store :=
  foldl (fun st entry =>
           match entry with
           | (c, None) => commit st c
           | (_, Some _) => st
           end) st log.

(** ** Construction and loading *)

(** [this.props.dotComAccount || this.props.enterpriseAccount]. *)
Definition account (p : props.t) : option Account :=
  match props.dotComAccount p with
  | Some a => Some a
  | None => props.enterpriseAccount p
  end.

(** The state set by the constructor. *)
Definition Preferences_constructor (p : props.t) : IPreferencesState :=
  {| selectedIndex := default Accounts (props.initialSelectedTab p);
     committerName := "";
     committerEmail := "";
     mergeToolName := "";
     mergeToolCommand := "";
     defaultBranch := "";
     initialCommitterName := None;
     initialCommitterEmail := None;
     initialDefaultBranch := None;
     initialMergeToolName := None;
     initialMergeToolCommand := None;
     initialUseCustomMergeTool := false;
     disallowedCharactersMessage := None;
     availableEditors := [];
     optOutOfUsageTracking := false;
     confirmRepositoryRemoval := false;
     confirmDiscardChanges := false;
     confirmForcePush := false;
     useCustomMergeTool := false;
     uncommittedChangesStrategy := defaultUncommittedChangesStrategy;
     selectedExternalEditor := props.selectedExternalEditor p;
     availableShells := [];
     selectedShell := props.selectedShell p;
     existingLockFilePath := None;
     repositoryIndicatorsEnabled := props.repositoryIndicatorsEnabled p |}.

(** [componentWillMount], given what the reads return: the store, and the
    editors and shells found on the machine. [identity] is the pair of the
    local variables [committerName] and [committerEmail] after the
    fallback on the account. *)
Definition componentWillMount (p : props.t) (st : Store)
    (editors : list FoundEditor) (shells : list FoundShell)
    (s : IPreferencesState) : IPreferencesState :=
  let initialCommitterName := getGlobalConfigValue st "user.name" in
  let initialCommitterEmail := getGlobalConfigValue st "user.email" in
  let initialDefaultBranch := getDefaultBranch st in
  let initialMergeToolName := getGlobalConfigValue st "merge.tool" in
  let initialMergeToolCommand : option string := None in
  let initialMergeToolCommand :=
    or_else initialMergeToolName
      (fun name => getGlobalConfigValue st ("mergetool." +:+ name +:+ ".cmd"))
      initialMergeToolCommand in
  let committerName := initialCommitterName in
  let committerEmail := initialCommitterEmail in
  let identity :=
    if negb (truthy committerName) || negb (truthy committerEmail) then
      match account p with
      | Some account =>
          (if negb (truthy committerName) then Some (login account)
           else committerName,
           if negb (truthy committerEmail) then lookupPreferredEmail account
           else committerEmail)
      | None => (committerName, committerEmail)
      end
    else (committerName, committerEmail) in
  let committerName := or_empty identity.1 in
  let committerEmail := or_empty identity.2 in
  let mergeTool := or_empty initialMergeToolName in
  let mergeToolCommand := or_empty initialMergeToolCommand in
  let availableEditors := editor <$> editors in
  let availableShells := shell <$> shells in
  {| selectedIndex := selectedIndex s;
     committerName := committerName;
     committerEmail := committerEmail;
     mergeToolName := mergeTool;
     mergeToolCommand := mergeToolCommand;
     defaultBranch := initialDefaultBranch;
     initialCommitterName := initialCommitterName;
     initialCommitterEmail := initialCommitterEmail;
     initialDefaultBranch := Some initialDefaultBranch;
     initialMergeToolName := initialMergeToolName;
     initialMergeToolCommand := initialMergeToolCommand;
     initialUseCustomMergeTool := truthy initialMergeToolName;
     disallowedCharactersMessage := disallowedCharactersMessage s;
     optOutOfUsageTracking := props.optOutOfUsageTracking p;
     confirmRepositoryRemoval := props.confirmRepositoryRemoval p;
     confirmDiscardChanges := props.confirmDiscardChanges p;
     confirmForcePush := props.confirmForcePush p;
     uncommittedChangesStrategy := props.uncommittedChangesStrategy p;
     availableEditors := availableEditors;
     selectedExternalEditor := selectedExternalEditor s;
     availableShells := availableShells;
     selectedShell := selectedShell s;
     existingLockFilePath := existingLockFilePath s;
     useCustomMergeTool := truthy initialMergeToolName;
     repositoryIndicatorsEnabled := repositoryIndicatorsEnabled s |}.

(** The dialog as it is once it has opened and loaded. *)
Definition opened (p : props.t) (st : Store)
    (editors : list FoundEditor) (shells : list FoundShell) : IPreferencesState :=
  componentWillMount p st editors shells (Preferences_constructor p).

(** ** The event handlers *)

Definition onDotComSignIn : M unit :=
  tell onDismissed;; tell showDotComSignInDialog.

Definition onEnterpriseSignIn : M unit :=
  tell onDismissed;; tell showEnterpriseSignInDialog.

Definition onLogout (a : Account) : M unit := tell (removeAccount a).

Definition onRepositoryIndicatorsEnabledChanged (b : bool)
    (s : IPreferencesState) : IPreferencesState :=
  s <| repositoryIndicatorsEnabled := b |>.

Definition onLockFileDeleted (s : IPreferencesState) : IPreferencesState :=
  s <| existingLockFilePath := None |>.

Definition onLockFileDeleteError (e : Error) : M unit := tell (postError e).

Definition onOptOutofReportingChanged (value : bool)
    (s : IPreferencesState) : IPreferencesState :=
  s <| optOutOfUsageTracking := value |>.

Definition onConfirmRepositoryRemovalChanged (value : bool)
    (s : IPreferencesState) : IPreferencesState :=
  s <| confirmRepositoryRemoval := value |>.

Definition onConfirmDiscardChangesChanged (value : bool)
    (s : IPreferencesState) : IPreferencesState :=
  s <| confirmDiscardChanges := value |>.

Definition onConfirmForcePushChanged (value : bool)
    (s : IPreferencesState) : IPreferencesState :=
  s <| confirmForcePush := value |>.

Definition onUncommittedChangesStrategyChanged
    (value : UncommittedChangesStrategy)
    (s : IPreferencesState) : IPreferencesState :=
  s <| uncommittedChangesStrategy := value |>.

Definition onCommitterNameChanged (name : string)
    (s : IPreferencesState) : IPreferencesState :=
  s <| committerName := name |>
    <| disallowedCharactersMessage :=
         if gitAuthorNameIsValid name then None
         else Some InvalidGitAuthorNameMessage |>.

Definition onMergeToolChanged (mergeTool : string)
    (s : IPreferencesState) : IPreferencesState :=
  s <| mergeToolName := mergeTool |>.

Definition onUseCustomMergeToolChanged (use : bool)
    (s : IPreferencesState) : IPreferencesState :=
  s <| useCustomMergeTool := use |>.

Definition onMergeToolCommandChanged (command : string)
    (s : IPreferencesState) : IPreferencesState :=
  s <| mergeToolCommand := command |>.

Definition onCommitterEmailChanged (email : string)
    (s : IPreferencesState) : IPreferencesState :=
  s <| committerEmail := email |>.

Definition onDefaultBranchChanged (branch : string)
    (s : IPreferencesState) : IPreferencesState :=
  s <| defaultBranch := branch |>.

Definition onSelectedEditorChanged (e : string)
    (s : IPreferencesState) : IPreferencesState :=
  s <| selectedExternalEditor := Some e |>.

Definition onSelectedShellChanged (sh : Shell)
    (s : IPreferencesState) : IPreferencesState :=
  s <| selectedShell := sh |>.

Definition onSelectedThemeChanged (theme : ApplicationTheme) : M unit :=
  tell (setSelectedTheme theme).

Definition onTabClicked (index : PreferencesTab)
    (s : IPreferencesState) : IPreferencesState :=
  s <| selectedIndex := index |>.

(** What the user can do in the dialog before saving, one constructor for
    each handler the tabs are given. *)
Inductive Action :=
  | DotComSignIn
  | EnterpriseSignIn
  | Logout (a : Account)
  | RepositoryIndicatorsEnabledChanged (b : bool)
  | LockFileDeleted
  | LockFileDeleteError (e : Error)
  | OptOutofReportingChanged (b : bool)
  | ConfirmRepositoryRemovalChanged (b : bool)
  | ConfirmDiscardChangesChanged (b : bool)
  | ConfirmForcePushChanged (b : bool)
  | UncommittedChangesStrategyChanged (v : UncommittedChangesStrategy)
  | CommitterNameChanged (v : string)
  | MergeToolChanged (v : string)
  | UseCustomMergeToolChanged (b : bool)
  | MergeToolCommandChanged (v : string)
  | CommitterEmailChanged (v : string)
  | DefaultBranchChanged (v : string)
  | SelectedEditorChanged (v : string)
  | SelectedShellChanged (v : Shell)
  | SelectedThemeChanged (v : ApplicationTheme)
  | TabClicked (index : PreferencesTab).

(** An action that edits a field of the form, as opposed to the account
    buttons, the lock-file recovery and the tab bar. *)
Definition is_field_edit (a : Action) : bool :=
  match a with
  | DotComSignIn | EnterpriseSignIn | Logout _
  | LockFileDeleted | LockFileDeleteError _ | TabClicked _ => false
  | _ => true
  end.

Definition is_theme_edit (a : Action) : bool :=
  match a with SelectedThemeChanged _ => true | _ => false end.

(** The handler of an action. *)
Definition handle (a : Action) (s : IPreferencesState) : M IPreferencesState :=
  match a with
  | DotComSignIn => onDotComSignIn;; mret s
  | EnterpriseSignIn => onEnterpriseSignIn;; mret s
  | Logout a => onLogout a;; mret s
  | RepositoryIndicatorsEnabledChanged b =>
      mret (onRepositoryIndicatorsEnabledChanged b s)
  | LockFileDeleted => mret (onLockFileDeleted s)
  | LockFileDeleteError e => onLockFileDeleteError e;; mret s
  | OptOutofReportingChanged b => mret (onOptOutofReportingChanged b s)
  | ConfirmRepositoryRemovalChanged b =>
      mret (onConfirmRepositoryRemovalChanged b s)
  | ConfirmDiscardChangesChanged b => mret (onConfirmDiscardChangesChanged b s)
  | ConfirmForcePushChanged b => mret (onConfirmForcePushChanged b s)
  | UncommittedChangesStrategyChanged v =>
      mret (onUncommittedChangesStrategyChanged v s)
  | CommitterNameChanged v => mret (onCommitterNameChanged v s)
  | MergeToolChanged v => mret (onMergeToolChanged v s)
  | UseCustomMergeToolChanged b => mret (onUseCustomMergeToolChanged b s)
  | MergeToolCommandChanged v => mret (onMergeToolCommandChanged v s)
  | CommitterEmailChanged v => mret (onCommitterEmailChanged v s)
  | DefaultBranchChanged v => mret (onDefaultBranchChanged v s)
  | SelectedEditorChanged v => mret (onSelectedEditorChanged v s)
  | SelectedShellChanged v => mret (onSelectedShellChanged v s)
  | SelectedThemeChanged v => onSelectedThemeChanged v;; mret s
  | TabClicked i => mret (onTabClicked i s)
  end.

(** A session of edits, handled one after the other. *)
Fixpoint handle_all (acts : list Action) (s : IPreferencesState)
    : M IPreferencesState :=
  match acts with
  | [] => mret s
  | a :: acts' => s' ← handle a s; handle_all acts' s'
  end.

End Loading.

(** ** What a save does, call by call *)

Section Plan.
Context `{Imports}.

(** The call [c] when [b] holds. *)
Definition opt (b : bool) (c : Call) : list Call := if b then [c] else [].

(** The calls of the [try] block of [onSave], in the order of the source,
    when none of them throws. *)
Definition plan (p : props.t) (s : IPreferencesState) : list Call :=
  opt (strict_ne (committerName s) (initialCommitterName s))
      (setGlobalConfigValue "user.name" (committerName s))
  ++ opt (strict_ne (committerEmail s) (initialCommitterEmail s))
         (setGlobalConfigValue "user.email" (committerEmail s))
  ++ match props.repository p with
     | Some r =>
         opt (strict_ne (committerName s) (initialCommitterName s)
              || strict_ne (committerEmail s) (initialCommitterEmail s))
             (refreshAuthor r)
     | None => []
     end
  ++ opt (bool_decide (0 < String.length (defaultBranch s))
          && strict_ne (defaultBranch s) (initialDefaultBranch s))
         (setDefaultBranch (defaultBranch s))
  ++ opt (bool_decide (props.repositoryIndicatorsEnabled p
                       ≠ repositoryIndicatorsEnabled s))
         (setRepositoryIndicatorsEnabled (repositoryIndicatorsEnabled s))
  ++ (if bool_decide (useCustomMergeTool s ≠ initialUseCustomMergeTool s)
         || strict_ne (mergeToolName s) (initialMergeToolName s)
         || strict_ne (mergeToolCommand s) (initialMergeToolCommand s)
      then
        opt (strict_ne (mergeToolName s) (initialMergeToolName s)
             && bool_decide (mergeToolName s ≠ ""))
            (setGlobalConfigValue "merge.tool" (mergeToolName s))
        ++ opt (strict_ne (mergeToolCommand s) (initialMergeToolCommand s)
                && bool_decide (mergeToolCommand s ≠ ""))
               (setGlobalConfigValue
                  ("mergetool." +:+ mergeToolName s +:+ ".cmd")
                  (mergeToolCommand s))
        ++ (if bool_decide (useCustomMergeTool s = false)
            then [removeGlobalConfigValue "merge.tool";
                  removeGlobalConfigValue
                    ("mergetool" +:+ to_js_string (initialMergeToolName s)
                     +:+ ".cmd")]
            else [])
      else []).

(** The calls that follow the [try] block, when none of them throws. *)
Definition settings (s : IPreferencesState) : list Call :=
  [setStatsOptOut (optOutOfUsageTracking s) false;
   setConfirmRepoRemovalSetting (confirmRepositoryRemoval s);
   setConfirmForcePushSetting (confirmForcePush s)]
  ++ or_else (selectedExternalEditor s) (fun e => [setExternalEditor e]) []
  ++ [setShell (selectedShell s);
      setConfirmDiscardChangesSetting (confirmDiscardChanges s);
      setUncommittedChangesStrategySetting (uncommittedChangesStrategy s)].

(** Every write [onSave] can make, in the order of the source. *)
Definition save_order (p : props.t) (s : IPreferencesState) : list Call :=
  [setGlobalConfigValue "user.name" (committerName s);
   setGlobalConfigValue "user.email" (committerEmail s)]
  ++ match props.repository p with Some r => [refreshAuthor r] | None => [] end
  ++ [setDefaultBranch (defaultBranch s);
      setRepositoryIndicatorsEnabled (repositoryIndicatorsEnabled s);
      setGlobalConfigValue "merge.tool" (mergeToolName s);
      setGlobalConfigValue ("mergetool." +:+ mergeToolName s +:+ ".cmd")
        (mergeToolCommand s);
      removeGlobalConfigValue "merge.tool";
      removeGlobalConfigValue
        ("mergetool" +:+ to_js_string (initialMergeToolName s) +:+ ".cmd");
      setStatsOptOut (optOutOfUsageTracking s) false;
      setConfirmRepoRemovalSetting (confirmRepositoryRemoval s);
      setConfirmForcePushSetting (confirmForcePush s)]
  ++ match selectedExternalEditor s with
     | Some e => [setExternalEditor e]
     | None => []
     end
  ++ [setShell (selectedShell s);
      setConfirmDiscardChangesSetting (confirmDiscardChanges s);
      setUncommittedChangesStrategySetting (uncommittedChangesStrategy s)].

(** Log entries of calls that returned. *)
Definition oks (cs : list Call) : Log := (fun c => (c, None)) <$> cs.

(** The four ways a save can go. *)
Inductive Saved (p : props.t) (s : IPreferencesState)
    : outcome IPreferencesState -> Log -> Prop :=
  | saved_locked pre c post e lockFilePath :
      plan p s = pre ++ c :: post ->
      isConfigFileLockError e = true ->
      parseConfigLockFilePathFromError (result e) = Some lockFilePath ->
      Saved p s
        (Ret (s <| existingLockFilePath := Some lockFilePath |>
                <| selectedIndex := Git |>))
        (oks pre ++ [(c, Some e)])
  | saved_failed pre c post e :
      plan p s = pre ++ c :: post ->
      (isConfigFileLockError e = true ->
       parseConfigLockFilePathFromError (result e) = None) ->
      Saved p s (Ret s)
        (oks pre ++ [(c, Some e); (onDismissed, None); (postError e, None)])
  | saved_rejected pre c post e :
      settings s = pre ++ c :: post ->
      Saved p s (Throw e) (oks (plan p s) ++ oks pre ++ [(c, Some e)])
  | saved_done :
      Saved p s (Ret s) (oks (plan p s ++ settings s) ++ [(onDismissed, None)]).

(** *** The fields of the form *)

Inductive Field :=
  | CommitterName | CommitterEmail | DefaultBranch | RepositoryIndicators
  | MergeToolName | MergeToolCommand | UseCustomMergeTool
  | OptOutOfUsageTracking | ConfirmRepositoryRemoval | ConfirmDiscardChanges
  | ConfirmForcePush | ExternalEditor | SelectedShell
  | UncommittedChanges.

(** The drafted value of a field differs from the value it had when the
    dialog loaded: from its [initial...] shadow where the state has one,
    from the property it was copied from otherwise. *)
Definition changed (f : Field) (p : props.t) (s : IPreferencesState) : Prop :=
  match f with
  | CommitterName => Some (committerName s) ≠ initialCommitterName s
  | CommitterEmail => Some (committerEmail s) ≠ initialCommitterEmail s
  | DefaultBranch => Some (defaultBranch s) ≠ initialDefaultBranch s
  | RepositoryIndicators =>
      props.repositoryIndicatorsEnabled p ≠ repositoryIndicatorsEnabled s
  | MergeToolName => Some (mergeToolName s) ≠ initialMergeToolName s
  | MergeToolCommand => Some (mergeToolCommand s) ≠ initialMergeToolCommand s
  | UseCustomMergeTool => useCustomMergeTool s ≠ initialUseCustomMergeTool s
  | OptOutOfUsageTracking =>
      optOutOfUsageTracking s ≠ props.optOutOfUsageTracking p
  | ConfirmRepositoryRemoval =>
      confirmRepositoryRemoval s ≠ props.confirmRepositoryRemoval p
  | ConfirmDiscardChanges =>
      confirmDiscardChanges s ≠ props.confirmDiscardChanges p
  | ConfirmForcePush => confirmForcePush s ≠ props.confirmForcePush p
  | ExternalEditor =>
      selectedExternalEditor s ≠ props.selectedExternalEditor p
  | SelectedShell => selectedShell s ≠ props.selectedShell p
  | UncommittedChanges =>
      uncommittedChangesStrategy s ≠ props.uncommittedChangesStrategy p
  end.

(** The call [c] writes the field [f] of the draft [s]. Turning the custom
    merge tool off writes no value: the key [merge.tool] is removed. *)
Definition writes_field (s : IPreferencesState) (f : Field) (c : Call) : bool :=
  match f, c with
  | CommitterName, setGlobalConfigValue name _ => String.eqb name "user.name"
  | CommitterEmail, setGlobalConfigValue name _ => String.eqb name "user.email"
  | DefaultBranch, setDefaultBranch _ => true
  | RepositoryIndicators, setRepositoryIndicatorsEnabled _ => true
  | MergeToolName, setGlobalConfigValue name _ => String.eqb name "merge.tool"
  | MergeToolCommand, setGlobalConfigValue name _ =>
      String.eqb name ("mergetool." +:+ mergeToolName s +:+ ".cmd")
  | UseCustomMergeTool, removeGlobalConfigValue name =>
      String.eqb name "merge.tool"
  | OptOutOfUsageTracking, setStatsOptOut _ _ => true
  | ConfirmRepositoryRemoval, setConfirmRepoRemovalSetting _ => true
  | ConfirmDiscardChanges, setConfirmDiscardChangesSetting _ => true
  | ConfirmForcePush, setConfirmForcePushSetting _ => true
  | ExternalEditor, setExternalEditor _ => true
  | SelectedShell, setShell _ => true
  | UncommittedChanges, setUncommittedChangesStrategySetting _ => true
  | _, _ => false
  end.

(** The log holds a write of the field. *)
Definition written (s : IPreferencesState) (f : Field) (log : Log) : bool :=
  existsb (writes_field s f) (calls log).

(** When a save in which no call fails writes a field. *)
Definition saved_when (f : Field) (p : props.t) (s : IPreferencesState)
    : Prop :=
  match f with
  | CommitterName | CommitterEmail | RepositoryIndicators => changed f p s
  | DefaultBranch => defaultBranch s ≠ "" ∧ changed f p s
  | MergeToolName => mergeToolName s ≠ "" ∧ changed f p s
  | MergeToolCommand => mergeToolCommand s ≠ "" ∧ changed f p s
  | UseCustomMergeTool =>
      useCustomMergeTool s = false
      ∧ (changed UseCustomMergeTool p s ∨ changed MergeToolName p s
         ∨ changed MergeToolCommand p s)
  | ExternalEditor => truthy (selectedExternalEditor s) = true
  | _ => True
  end.

(** The themes chosen during a session of edits, in order. *)
Definition themes_chosen (acts : list Action) : list ApplicationTheme :=
  omap (fun a => match a with SelectedThemeChanged v => Some v | _ => None end)
       acts.

(** *** Five properties in their strongest reading

    Each of them is refuted below on the sample application, and proved in
    the form the code supports. *)

(** A save writes a field if and only if the field changed. *)
Definition written_iff_changed : Prop :=
  ∀ p s (f : Field),
    written s f (onSave reliable p s []).2 = true ↔ changed f p s.

(** Whatever write fails, with an error other than a lock error with a
    path, the dialog is dismissed once and one error is reported. *)
Definition every_failure_dismisses_once : Prop :=
  ∀ world p s c e,
    failed (onSave world p s []).2 c e → is_write c = true →
    isConfigFileLockError e = false
    ∨ parseConfigLockFilePathFromError (result e) = None →
    count is_dismissal (onSave world p s []).2 = 1
    ∧ count is_error_report (onSave world p s []).2 = 1.

(** Once a write has failed, whichever way, no write follows it. *)
Definition failure_stops_writes : Prop :=
  ∀ world p s log1 c r log2 e,
    (onSave world p s []).2 = log1 ++ (c, r) :: log2 →
    is_write c = true →
    world log1 c = Threw e ∨ world log1 c = Rejected e →
    logged is_write log2 = [].

(** Edits of the form write nothing to the collaborators. *)
Definition edits_write_nothing : Prop :=
  ∀ acts s,
    Forall (λ a, is_field_edit a = true) acts →
    logged is_write (handle_all acts s []).2 = [].

(** Once loaded, the six fields with a shadow equal their shadow, and a
    save without edits writes nothing to the configuration. *)
Definition loaded_fields_equal_shadows : Prop :=
  ∀ p st editors shells,
    let s := opened p st editors shells in
    (Some (committerName s) = initialCommitterName s
     ∧ Some (committerEmail s) = initialCommitterEmail s
     ∧ Some (defaultBranch s) = initialDefaultBranch s
     ∧ Some (mergeToolName s) = initialMergeToolName s
     ∧ Some (mergeToolCommand s) = initialMergeToolCommand s
     ∧ useCustomMergeTool s = initialUseCustomMergeTool s)
    ∧ logged is_config_write (onSave reliable p s []).2 = [].

End Plan.

(** ** Rendering *)

Section Rendering.
Context `{Imports}.

(** What [renderActiveTab] shows: the component of the selected tab with
    the values it is given. The callbacks it is given are the handlers
    above. The Git tab is preceded by the lock-file error when there is
    one. *)
Inductive View :=
  | AccountsView (dotComAccount enterpriseAccount : option Account)
  | IntegrationsView (availableEditors : list string)
      (selectedExternalEditor : option string)
      (availableShells : list Shell) (selectedShell : Shell)
  | GitView (lockFilePath : option string)
      (name email mergeTool : string) (useCustomMergeTool : bool)
      (mergeToolCommand defaultBranch : string)
      (dotComAccount enterpriseAccount : option Account)
  | AppearanceView (selectedTheme : ApplicationTheme)
  | PromptsView (confirmRepositoryRemoval confirmDiscardChanges
                   confirmForcePush : bool)
  | AdvancedView (optOutOfUsageTracking repositoryIndicatorsEnabled : bool)
      (uncommittedChangesStrategy : UncommittedChangesStrategy).

Definition renderActiveTab (p : props.t) (s : IPreferencesState) : View :=
  let index := selectedIndex s in
  match index with
  | Accounts =>
      AccountsView (props.dotComAccount p) (props.enterpriseAccount p)
  | Integrations =>
      IntegrationsView (availableEditors s) (selectedExternalEditor s)
        (availableShells s) (selectedShell s)
  | Git =>
      GitView (existingLockFilePath s)
        (committerName s) (committerEmail s) (mergeToolName s)
        (useCustomMergeTool s) (mergeToolCommand s) (defaultBranch s)
        (props.dotComAccount p) (props.enterpriseAccount p)
  | Appearance => AppearanceView (props.selectedTheme p)
  | Prompts =>
      PromptsView (confirmRepositoryRemoval s) (confirmDiscardChanges s)
        (confirmForcePush s)
  | Advanced =>
      AdvancedView (optOutOfUsageTracking s) (repositoryIndicatorsEnabled s)
        (uncommittedChangesStrategy s)
  end.

(** The message [renderDisallowedCharactersError] shows, if any. *)
Definition renderDisallowedCharactersError (s : IPreferencesState)
    : option string :=
  match disallowedCharactersMessage s with
  | Some message => Some message
  | None => None
  end.

(** The footer: the button group with its Save button. *)
Record Footer := {
  okButtonText : string;
  okButtonDisabled : bool;
}.

Definition renderFooter (s : IPreferencesState) : option Footer :=
  let hasDisabledError :=
    match disallowedCharactersMessage s with Some _ => true | None => false end
  in
  let index := selectedIndex s in
  match index with
  | Accounts | Appearance => None
  | Integrations | Advanced | Prompts | Git =>
      Some {| okButtonText := "Save"; okButtonDisabled := hasDisabledError |}
  end.

(** What [render] puts in the dialog; [darwin] is [__DARWIN__]. *)
Record Rendered := {
  title : string;
  disallowedCharactersError : option string;
  tabSelected : PreferencesTab;
  activeTab : View;
  footer : option Footer;
}.

Definition render (darwin : bool) (p : props.t) (s : IPreferencesState)
    : Rendered :=
  {| title := if darwin then "Preferences" else "Options";
     disallowedCharactersError := renderDisallowedCharactersError s;
     tabSelected := selectedIndex s;
     activeTab := renderActiveTab p s;
     footer := renderFooter s |}.

(** *** Reading a log *)

(** The key of the global configuration a call writes, if it writes one. *)
Definition key_of (c : Call) : option string :=
  match c with
  | setGlobalConfigValue name _ | removeGlobalConfigValue name => Some name
  | _ => None
  end.

(** The actions that change the committer name. *)
Definition is_name_edit (a : Action) : bool :=
  match a with CommitterNameChanged _ => true | _ => false end.

(** The sign-in buttons. *)
Definition is_sign_in (a : Action) : bool :=
  match a with DotComSignIn | EnterpriseSignIn => true | _ => false end.

(** The number of sign-in buttons pressed in a session. *)
Definition sign_ins (acts : list Action) : nat :=
  length (filter (λ a, is_sign_in a) acts).

End Rendering.

(** ** A concrete application *)

(** Errors of the sample application: Git failing on a locked configuration
    file, its message naming the lock file or not, and any other failure. *)
Inductive SampleError :=
  | ConfigLocked (lockFile : option string)
  | Failure (message : string).

Definition sample : Imports :=
  {| Account := string * option string;
     login := fst;
     lookupPreferredEmail := snd;
     Repository := string;
     Shell := string;
     ApplicationTheme := bool;
     UncommittedChangesStrategy := bool;
     defaultUncommittedChangesStrategy := false;
     Error := SampleError;
     IGitResult := option string;
     result := fun e => match e with ConfigLocked f => f | Failure _ => None end;
     isConfigFileLockError := fun e =>
       match e with ConfigLocked _ => true | Failure _ => false end;
     parseConfigLockFilePathFromError := id;
     gitAuthorNameIsValid := fun name => bool_decide (name ≠ "");
     InvalidGitAuthorNameMessage := "Name is invalid";
     FoundEditor := string;
     editor := id;
     FoundShell := string;
     shell := id |}.

Section Samples.
Existing Instance sample.

Definition sample_props : props.t :=
  {| props.dotComAccount := None;
     props.enterpriseAccount := None;
     props.repository := Some "desktop";
     props.optOutOfUsageTracking := false;
     props.initialSelectedTab := None;
     props.confirmRepositoryRemoval := true;
     props.confirmDiscardChanges := true;
     props.confirmForcePush := true;
     props.uncommittedChangesStrategy := false;
     props.selectedExternalEditor := Some "vim";
     props.selectedShell := "bash";
     props.selectedTheme := false;
     props.repositoryIndicatorsEnabled := true |}.

Definition octocat : Account := ("octocat", Some "octocat@github.com").

(** The same, signed in to GitHub.com. *)
Definition signed_in_props : props.t :=
  {| props.dotComAccount := Some octocat;
     props.enterpriseAccount := None;
     props.repository := Some "desktop";
     props.optOutOfUsageTracking := false;
     props.initialSelectedTab := None;
     props.confirmRepositoryRemoval := true;
     props.confirmDiscardChanges := true;
     props.confirmForcePush := true;
     props.uncommittedChangesStrategy := false;
     props.selectedExternalEditor := Some "vim";
     props.selectedShell := "bash";
     props.selectedTheme := false;
     props.repositoryIndicatorsEnabled := true |}.

(** A configuration with an identity and a merge tool. *)
Definition full_store : Store :=
  {| globalConfig :=
       <["user.name" := "Mona"]>
         (<["user.email" := "mona@github.com"]>
            (<["merge.tool" := "meld"]>
               (<["mergetool.meld.cmd" := "meld $LOCAL $REMOTE"]> ∅)));
     storedDefaultBranch := "main" |}.

(** A configuration without identity and without merge tool. *)
Definition bare_store : Store :=
  {| globalConfig := ∅; storedDefaultBranch := "main" |}.

(** A configuration with a merge tool and without identity. *)
Definition anonymous_store : Store :=
  {| globalConfig :=
       <["merge.tool" := "meld"]>
         (<["mergetool.meld.cmd" := "meld $LOCAL $REMOTE"]> ∅);
     storedDefaultBranch := "main" |}.

(** Collaborators that reject the promise of every call of the kind [kind]
    with [e]. *)
Definition failing_at (kind : Call -> bool) (e : Error) : Collaborators :=
  fun _ c => if kind c then Rejected e else Returned.

Definition lock_error : Error :=
  ConfigLocked (Some "/home/mona/.gitconfig.lock").

Definition disk_full : Error := Failure "disk full".

(** The configuration file is locked by another process. *)
Definition locked_world : Collaborators := failing_at is_config_write lock_error.

(** The configuration file cannot be written. *)
Definition broken_world : Collaborators := failing_at is_config_write disk_full.

(** The settings of the application cannot be written. *)
(** The calls [onSave] does not await return a promise that is rejected. *)
Definition dropped_rejected : Collaborators :=
  failing_at (λ c, negb (is_awaited c)) disk_full.

Definition settings_down : Collaborators :=
  failing_at is_setting_write disk_full.

(** The dialog loaded on the full configuration, and after one edit. *)
Definition loaded : IPreferencesState :=
  opened sample_props full_store ["vim"] ["bash"].

Definition renamed : IPreferencesState :=
  onCommitterNameChanged "Mona Lisa" loaded.

Definition branch_cleared : IPreferencesState :=
  onDefaultBranchChanged "" loaded.

Definition tool_changed : IPreferencesState :=
  onMergeToolChanged "kdiff3" loaded.

Definition tool_off : IPreferencesState :=
  onUseCustomMergeToolChanged false loaded.

Definition renamed_without_indicators : IPreferencesState :=
  onRepositoryIndicatorsEnabledChanged false renamed.

End Samples.

(** * Properties *)

Local Set Warnings "-clear-no-such-hyp".

Section Properties.
Context `{Imports}.
Implicit Types (p : props.t) (s : IPreferencesState) (st : Store).
Implicit Types (c : Call) (cs : list Call) (log : Log) (e : Error).
Implicit Types (world : Collaborators).

(** ** Runs of calls *)

Lemma oks_app cs1 cs2 : oks (cs1 ++ cs2) = oks cs1 ++ oks cs2.
Proof. apply fmap_app. Qed.

Lemma calls_oks cs : calls (oks cs) = cs.
Proof.
  unfold calls, oks. rewrite <-list_fmap_compose.
  induction cs as [|c cs IH]; [done|]. cbn. by rewrite IH.
Qed.

Lemma call_all_app world cs1 cs2 log :
  call_all world (cs1 ++ cs2) log
  = (call_all world cs1;; call_all world cs2) log.
Proof.
  revert log. induction cs1 as [|c cs1 IH]; intros log; [done|].
  cbn [app call_all]. unfold mbind, M_bind, issue in *.
  destruct (observe _ (world log c)); [done|]. apply IH.
Qed.

(** A run of calls either goes through, every call returning, or stops at
    the first call that throws. *)
Lemma call_all_cases world cs log :
  call_all world cs log = (Ret tt, log ++ oks cs)
  ∨ ∃ pre c post e,
      cs = pre ++ c :: post
      ∧ call_all world cs log = (Throw e, log ++ oks pre ++ [(c, Some e)]).
Proof.
  revert log. induction cs as [|c cs IH]; intros log.
  - left. cbn. by rewrite app_nil_r.
  - cbn [call_all]. unfold mbind, M_bind, issue.
    destruct (observe _ (world log c)) as [e|] eqn:Hc.
    + right. exists [], c, cs, e. done.
    + destruct (IH (log ++ [(c, None)])) as [->|(pre & c' & post & e & -> & ->)].
      * left. cbn. by rewrite <-app_assoc.
      * right. exists (c :: pre), c', post, e. cbn. by rewrite <-!app_assoc.
Qed.

(** ** The save handler follows its plan *)

Lemma issue_plan world b c log :
  b = is_awaited c → issue world b c log = call_all world [c] log.
Proof.
  intros ->. cbn [call_all]. unfold mbind, mret, M_bind, M_ret, issue.
  by destruct (observe _ (world log c)).
Qed.

Lemma issue_cons_plan world b c (k : M unit) cs :
  b = is_awaited c →
  (∀ log, k log = call_all world cs log) →
  ∀ log, (issue world b c;; k) log = call_all world (c :: cs) log.
Proof.
  intros -> Hk log. cbn [call_all]. unfold mbind, M_bind.
  by destruct (issue world _ c log) as [[[]|e] log'].
Qed.

Lemma seq_plan world (m k : M unit) cs1 cs2 :
  (∀ log, m log = call_all world cs1 log) →
  (∀ log, k log = call_all world cs2 log) →
  ∀ log, (m;; k) log = call_all world (cs1 ++ cs2) log.
Proof.
  intros Hm Hk log. rewrite call_all_app. unfold mbind, M_bind.
  rewrite Hm. by destruct (call_all world cs1 log) as [[[]|e] log'].
Qed.

Lemma when_plan world (b : bool) (m : M unit) cs :
  (∀ log, m log = call_all world cs log) →
  ∀ log, when b m log = call_all world (if b then cs else []) log.
Proof. intros Hm log. destruct b; [apply Hm | done]. Qed.

Lemma issue_ret_plan {A} world b c (v : A) (k : A → M unit) cs :
  b = is_awaited c →
  (∀ log, k v log = call_all world cs log) →
  ∀ log,
    ((issue world b c;; mret v) ≫= k) log = call_all world ([c] ++ cs) log.
Proof.
  intros -> Hk log. cbn [app call_all].
  unfold mbind, mret, M_bind, M_ret, issue.
  destruct (observe _ (world log c)); [done|]. apply Hk.
Qed.

Lemma ret_plan {A} world (v : A) (k : A → M unit) cs :
  (∀ log, k v log = call_all world cs log) →
  ∀ log, (mret v ≫= k) log = call_all world ([] ++ cs) log.
Proof. intros Hk log. apply Hk. Qed.

Ltac follow_plan :=
  cbv beta;
  first
    [ apply issue_ret_plan; [reflexivity | follow_plan]
    | apply ret_plan; follow_plan
    | apply seq_plan; [follow_plan | follow_plan]
    | apply when_plan; follow_plan
    | apply issue_cons_plan; [reflexivity | follow_plan]
    | intros; apply issue_plan; reflexivity
    | intros; reflexivity ].

Lemma onSave_try_plan world p s log :
  onSave_try world p s log = call_all world (plan p s) log.
Proof.
  unfold onSave_try, plan, opt, call, fire. revert log.
  destruct (props.repository p) as [r|];
    destruct (strict_ne (committerName s) _), (strict_ne (committerEmail s) _);
    cbn [orb]; follow_plan.
Qed.

Lemma onSave_settings_plan world s log :
  onSave_settings world s log = call_all world (settings s) log.
Proof.
  unfold onSave_settings, settings, or_else, call. cbn [app]. revert log.
  destruct (selectedExternalEditor s) as [ed|];
    [destruct (bool_decide (ed ≠ ""))|]; follow_plan.
Qed.

(** Every save goes one of the four ways of [Saved]. *)
Theorem onSave_saved world p s :
  Saved p s (onSave world p s []).1 (onSave world p s []).2.
Proof.
  cbv [onSave try_catch mbind M_bind mret M_ret].
  rewrite onSave_try_plan.
  destruct (call_all_cases world (plan p s) [])
    as [Htry|(pre & c & post & e & Hplan & Htry)]; rewrite Htry; cbn [app].
  - rewrite onSave_settings_plan.
    destruct (call_all_cases world (settings s) (oks (plan p s)))
      as [Hset|(pre & c & post & e & Hsettings & Hset)]; rewrite Hset.
    + cbv [tell]. cbn [fst snd]. rewrite <-oks_app. apply saved_done.
    + cbn [fst snd]. by eapply saved_rejected.
  - unfold onSave_catch.
    destruct (isConfigFileLockError e) eqn:Hlock;
      [destruct (parseConfigLockFilePathFromError (result e)) eqn:Hpath|].
    + cbn [fst snd]. by eapply saved_locked.
    + cbv [tell mbind M_bind mret M_ret]. cbn [fst snd]. rewrite <-!app_assoc.
      eapply saved_failed; [done|]. by intros _.
    + cbv [tell mbind M_bind mret M_ret]. cbn [fst snd]. rewrite <-!app_assoc.
      eapply saved_failed; [done|]. congruence.
Qed.

(** ** What the plan holds *)

Ltac each_case H := repeat destruct H as [H|H].

Lemma elem_of_opt (b : bool) c c' : c' ∈ opt b c ↔ b = true ∧ c' = c.
Proof. destruct b; cbn; set_solver. Qed.

Lemma elem_of_if_nil (b : bool) cs c :
  c ∈ (if b then cs else []) ↔ b = true ∧ c ∈ cs.
Proof. destruct b; set_solver. Qed.

Lemma strict_ne_true (a : string) (b : option string) :
  strict_ne a b = true ↔ Some a ≠ b.
Proof. apply bool_decide_eq_true. Qed.

Lemma length_pos (a : string) : 0 < String.length a ↔ a ≠ "".
Proof. destruct a; cbn; [|split; [done|lia]]. split; [lia|done]. Qed.

Lemma ex_some_eq {A} (x : A) (P : A → Prop) :
  (∃ y, Some x = Some y ∧ P y) ↔ P x.
Proof. naive_solver. Qed.

Lemma ex_none_eq {A} (P : A → Prop) : (∃ y, None = Some y ∧ P y) ↔ False.
Proof. naive_solver. Qed.

Lemma elem_of_plan p s c :
  c ∈ plan p s ↔
    (c = setGlobalConfigValue "user.name" (committerName s)
     ∧ changed CommitterName p s)
    ∨ (c = setGlobalConfigValue "user.email" (committerEmail s)
       ∧ changed CommitterEmail p s)
    ∨ ((∃ r, props.repository p = Some r ∧ c = refreshAuthor r)
       ∧ (changed CommitterName p s ∨ changed CommitterEmail p s))
    ∨ (c = setDefaultBranch (defaultBranch s)
       ∧ saved_when DefaultBranch p s)
    ∨ (c = setRepositoryIndicatorsEnabled (repositoryIndicatorsEnabled s)
       ∧ changed RepositoryIndicators p s)
    ∨ (c = setGlobalConfigValue "merge.tool" (mergeToolName s)
       ∧ saved_when MergeToolName p s)
    ∨ (c = setGlobalConfigValue
             ("mergetool." +:+ mergeToolName s +:+ ".cmd") (mergeToolCommand s)
       ∧ saved_when MergeToolCommand p s)
    ∨ ((c = removeGlobalConfigValue "merge.tool"
        ∨ c = removeGlobalConfigValue
                ("mergetool" +:+ to_js_string (initialMergeToolName s)
                 +:+ ".cmd"))
       ∧ saved_when UseCustomMergeTool p s).
Proof.
  unfold plan, saved_when, changed.
  rewrite !elem_of_app, !elem_of_if_nil, !elem_of_app, !elem_of_opt,
    elem_of_if_nil, !andb_true_iff, !orb_true_iff, !strict_ne_true,
    !bool_decide_eq_true, length_pos, !elem_of_cons, elem_of_nil.
  destruct (props.repository p) as [r|];
    rewrite ?elem_of_opt, ?orb_true_iff, ?strict_ne_true, ?elem_of_nil.
  - rewrite (ex_some_eq r). tauto.
  - rewrite ex_none_eq. tauto.
Qed.

Lemma elem_of_settings s c :
  c ∈ settings s ↔
    c = setStatsOptOut (optOutOfUsageTracking s) false
    ∨ c = setConfirmRepoRemovalSetting (confirmRepositoryRemoval s)
    ∨ c = setConfirmForcePushSetting (confirmForcePush s)
    ∨ (∃ ed, selectedExternalEditor s = Some ed ∧ ed ≠ ""
             ∧ c = setExternalEditor ed)
    ∨ c = setShell (selectedShell s)
    ∨ c = setConfirmDiscardChangesSetting (confirmDiscardChanges s)
    ∨ c = setUncommittedChangesStrategySetting (uncommittedChangesStrategy s).
Proof.
  unfold settings, or_else. rewrite !elem_of_app, !elem_of_cons, !elem_of_nil.
  destruct (selectedExternalEditor s) as [ed|]; [case_bool_decide|];
    rewrite ?elem_of_cons, ?elem_of_nil; naive_solver.
Qed.

Lemma settings_not_in_try s c : c ∈ settings s → in_try_block c = false.
Proof.
  rewrite elem_of_settings. intros Hc. each_case Hc;
    try destruct Hc as (ed & _ & _ & ->); by subst.
Qed.

Lemma settings_is_setting s c : c ∈ settings s → is_setting_write c = true.
Proof.
  rewrite elem_of_settings. intros Hc. each_case Hc;
    try destruct Hc as (ed & _ & _ & ->); by subst.
Qed.

Lemma plan_in_try p s c : c ∈ plan p s → in_try_block c = true.
Proof.
  rewrite elem_of_plan. intros Hc. each_case Hc; destruct Hc as [Hc _];
    try destruct Hc as (r & _ & ->); try destruct Hc as [->| ->]; by subst.
Qed.

Lemma elem_of_oks cs c (r : Response) : (c, r) ∈ oks cs ↔ r = None ∧ c ∈ cs.
Proof. unfold oks. rewrite list_elem_of_fmap. naive_solver. Qed.

(** ** What the log of a save holds *)

(** Every logged call comes from the plan of the [try] block, from the
    settings, or is one of the two reports of the [catch] clause. *)
Lemma saved_entry p s o log c (r : Response) :
  Saved p s o log → (c, r) ∈ log →
  c ∈ plan p s ∨ c ∈ settings s ∨ c = onDismissed ∨ ∃ e, c = postError e.
Proof.
  intros Hsaved Hin.
  destruct Hsaved as [pre c0 post e path Hplan _ _|pre c0 post e Hplan _
                     |pre c0 post e Hset|];
    rewrite ?oks_app, ?elem_of_app, ?elem_of_cons, ?elem_of_nil, ?elem_of_oks
      in Hin;
    try rewrite Hplan; try rewrite Hset;
    rewrite ?elem_of_app, ?elem_of_cons;
    each_case Hin; destruct_and?; simplify_eq; intuition eauto.
Qed.

Lemma replay_app log1 log2 st :
  replay (log1 ++ log2) st = replay log2 (replay log1 st).
Proof. apply foldl_app. Qed.

Lemma replay_default_branch log st :
  (∀ v, (setDefaultBranch v, None) ∉ log) →
  getDefaultBranch (replay log st) = getDefaultBranch st.
Proof.
  induction log as [|[c r] log IH] using rev_ind; [done|].
  intros Hno. rewrite replay_app. cbn.
  assert (getDefaultBranch (replay log st) = getDefaultBranch st) as <-.
  { apply IH. intros v Hv. apply (Hno v). set_solver. }
  destruct r as [e|]; [done|].
  destruct c; try done. exfalso. eapply (Hno branchName). set_solver.
Qed.

(** The cases of a logged call of [onSave]: where it comes from, and the
    condition under which the plan holds it. *)
Ltac entry_cases Hin :=
  apply (saved_entry _ _ _ _ _ _ (onSave_saved _ _ _)) in Hin;
  destruct Hin as [Hin|[Hin|[Hin|[? Hin]]]];
  [apply elem_of_plan in Hin|apply elem_of_settings in Hin|..];
  each_case Hin; destruct_and?; destruct_or?; try discriminate;
  try match goal with
      | H : ∃ _, _ |- _ => destruct H as (?&?&?); destruct_and?
      end;
  try discriminate.

Ltac string_clash :=
  match goal with
  | H : _ = _ :> string |- _ => cbv [String.append] in H; discriminate H
  | H : setGlobalConfigValue _ _ = setGlobalConfigValue _ _ |- _ =>
      injection H as ??; subst; string_clash
  | H : removeGlobalConfigValue _ = removeGlobalConfigValue _ |- _ =>
      injection H as ?; string_clash
  end.

(** ** The guarded writes *)

(** C3. An empty default-branch draft is never written, so the stored
    default branch stays as it was; and whenever [setDefaultBranch] is
    called, it is with the drafted name, which is then not empty and
    differs from the initial one. This holds whatever the collaborators
    answer. *)
Theorem default_branch_write_guard world p s st :
  (defaultBranch s = "" →
     (∀ v r, (setDefaultBranch v, r) ∉ (onSave world p s []).2)
     ∧ getDefaultBranch (replay (onSave world p s []).2 st)
       = getDefaultBranch st)
  ∧ (∀ v r, (setDefaultBranch v, r) ∈ (onSave world p s []).2 →
       v = defaultBranch s ∧ defaultBranch s ≠ ""
       ∧ Some (defaultBranch s) ≠ initialDefaultBranch s).
Proof.
  assert (∀ v r, (setDefaultBranch v, r) ∈ (onSave world p s []).2 →
            v = defaultBranch s ∧ defaultBranch s ≠ ""
            ∧ Some (defaultBranch s) ≠ initialDefaultBranch s) as Hguard.
  { intros v r Hin. entry_cases Hin.
    match goal with H : setDefaultBranch _ = _ |- _ => injection H as -> end.
    done. }
  split; [|done]. intros Hempty.
  assert (∀ v r, (setDefaultBranch v, r) ∉ (onSave world p s []).2) as Hno.
  { intros v r Hin. by destruct (Hguard v r Hin) as (_ & ? & _). }
  split; [done|]. apply replay_default_branch. intros v. apply Hno.
Qed.

(** C9. [setGlobalConfigValue] is called on the key [merge.tool] only with
    the drafted tool name, and only when that name is not empty and differs
    from the initial one; it is called on the key
    [mergetool.<drafted name>.cmd] only with the drafted command, and only
    when that command is not empty and differs from the initial one. *)
Theorem merge_tool_write_guard world p s name value r :
  (setGlobalConfigValue name value, r) ∈ (onSave world p s []).2 →
  (name = "merge.tool" →
     value = mergeToolName s ∧ mergeToolName s ≠ ""
     ∧ Some (mergeToolName s) ≠ initialMergeToolName s)
  ∧ (name = "mergetool." +:+ mergeToolName s +:+ ".cmd" →
     value = mergeToolCommand s ∧ mergeToolCommand s ≠ ""
     ∧ Some (mergeToolCommand s) ≠ initialMergeToolCommand s).
Proof.
  intros Hin. entry_cases Hin;
    match goal with
    | H : setGlobalConfigValue _ _ = _ |- _ => injection H as -> ->
    end;
    (split; intros Hname; [try string_clash|try string_clash]); done.
Qed.

(** ** Order and failure *)

Lemma opt_sublist (b : bool) c cs1 cs2 :
  cs1 `sublist_of` cs2 → opt b c ++ cs1 `sublist_of` c :: cs2.
Proof. destruct b; cbn; by constructor. Qed.

Lemma plan_settings_order p s :
  plan p s ++ settings s `sublist_of` save_order p s.
Proof.
  unfold plan, save_order. rewrite <-!app_assoc. cbn [app].
  do 2 apply opt_sublist.
  destruct (props.repository p) as [r|]; cbn [app]; [apply opt_sublist|];
    do 2 apply opt_sublist.
  all: match goal with
       | |- context [if ?b then _ ++ _ else _] => destruct b
       end; rewrite <-?app_assoc; cbn [app].
  all: try (do 2 apply opt_sublist; case_bool_decide; cbn [app]).
  all: repeat first [apply sublist_skip|apply sublist_cons].
  all: unfold settings, or_else; cbn [app]; repeat apply sublist_skip.
  all: destruct (selectedExternalEditor s) as [ed|];
    [case_bool_decide|]; cbn [app];
    repeat first [apply sublist_skip|apply sublist_cons]; done.
Qed.

Lemma filter_oks (f : Call → bool) cs :
  logged f (oks cs) = filter (λ c, f c) cs.
Proof. unfold logged. by rewrite calls_oks. Qed.

Lemma logged_app (f : Call → bool) log1 log2 :
  logged f (log1 ++ log2) = logged f log1 ++ logged f log2.
Proof. unfold logged, calls. by rewrite fmap_app, filter_app. Qed.

(** A log without failure cannot be split at a failed call. *)
Lemma oks_no_failure cs log1 c e log2 :
  oks cs ≠ log1 ++ (c, Some e) :: log2.
Proof.
  intros Heq.
  assert ((c, Some e) ∈ oks cs) as Hin by (rewrite Heq; set_solver).
  apply elem_of_oks in Hin as [? _]. done.
Qed.

(** A log with one failure splits at a failed call in one way only. *)
Lemma one_failure cs c0 e0 cs' log1 c e log2 :
  oks cs ++ (c0, Some e0) :: oks cs' = log1 ++ (c, Some e) :: log2 →
  log1 = oks cs ∧ c = c0 ∧ e = e0 ∧ log2 = oks cs'.
Proof.
  revert log1. induction cs as [|c1 cs IH]; intros [|entry log1] Heq;
    cbn in Heq; simplify_eq.
  - done.
  - by edestruct oks_no_failure.
  - by destruct (IH _ ltac:(done)) as (-> & -> & -> & ->).
Qed.

Lemma Forall_oks (P : Call * Response → Prop) cs :
  (∀ c, c ∈ cs → P (c, None)) → Forall P (oks cs).
Proof.
  intros HP. apply Forall_forall. intros [c r] Hin.
  apply elem_of_oks in Hin as [-> Hin]. by apply HP.
Qed.

Lemma logged_sublist (f : Call → bool) log :
  logged f log `sublist_of` calls log.
Proof. apply sublist_filter. Qed.

Lemma calls_app log1 log2 : calls (log1 ++ log2) = calls log1 ++ calls log2.
Proof. apply fmap_app. Qed.

(** The writes of a save are writes of its plan and of its settings, in
    their order. *)
Lemma saved_writes_sublist p s o log :
  Saved p s o log →
  logged is_write log `sublist_of` plan p s ++ settings s.
Proof.
  destruct 1 as [pre c0 post e path Hplan _ _|pre c0 post e Hplan _
                |pre c0 post e Hset|].
  - etrans; [apply logged_sublist|].
    rewrite calls_app, calls_oks, Hplan. cbn.
    apply sublist_inserts_r, sublist_app; [done|].
    apply sublist_skip, sublist_nil_l.
  - change [(c0, Some e); (onDismissed, None); (postError e, None)]
      with ([(c0, Some e)] ++ oks [onDismissed; postError e]).
    rewrite app_assoc, logged_app, filter_oks. cbn. rewrite app_nil_r.
    etrans; [apply logged_sublist|].
    rewrite calls_app, calls_oks, Hplan. cbn.
    apply sublist_inserts_r, sublist_app; [done|].
    apply sublist_skip, sublist_nil_l.
  - etrans; [apply logged_sublist|].
    rewrite !calls_app, !calls_oks, Hset. cbn.
    apply sublist_app; [done|]. apply sublist_app; [done|].
    apply sublist_skip, sublist_nil_l.
  - change [(onDismissed, None)] with (oks [onDismissed]).
    rewrite logged_app, !filter_oks. cbn. rewrite app_nil_r.
    apply sublist_filter.
Qed.

(** ** What the handler gets from the collaborators *)

Lemma answered_nil world : answered world [].
Proof. intros log1 c r log2 Hsplit. by destruct log1. Qed.

Lemma answered_snoc world log c (r : Response) :
  answered world log →
  (is_write c = true → r = observe (is_awaited c) (world log c)) →
  answered world (log ++ [(c, r)]).
Proof.
  intros Hlog Hr log1 c' r' log2 Hsplit Hw.
  induction log2 as [|x log2 _] using rev_ind.
  - apply app_inj_tail in Hsplit as [-> Heq]. injection Heq as -> ->. auto.
  - rewrite app_comm_cons, app_assoc in Hsplit.
    apply app_inj_tail in Hsplit as [-> _]. by eapply Hlog.
Qed.

Lemma call_all_answered world cs log :
  answered world log → answered world (call_all world cs log).2.
Proof.
  revert log. induction cs as [|c cs IH]; intros log Hlog; [done|].
  cbn [call_all]. unfold mbind, M_bind, issue.
  pose proof (answered_snoc world log c _ Hlog (λ _, eq_refl)) as Hnext.
  destruct (observe _ (world log c)) as [e|]; [done|]. by apply IH.
Qed.

(** Every write in the log of a save is there with what the handler got
    from the collaborators: [Some e] when the call threw [e], or was awaited
    and its promise rejected with [e]; [None] otherwise. *)
Lemma onSave_answered world p s : answered world (onSave world p s []).2.
Proof.
  cbv [onSave try_catch mbind M_bind mret M_ret].
  rewrite onSave_try_plan.
  pose proof (call_all_answered world (plan p s) [] (answered_nil world))
    as Htry.
  destruct (call_all world (plan p s) []) as [[[]|e] log1]; cbn [snd] in Htry.
  - rewrite onSave_settings_plan.
    pose proof (call_all_answered world (settings s) log1 Htry) as Hset.
    destruct (call_all world (settings s) log1) as [[[]|e] log2];
      cbn [snd] in *; [|done].
    by apply answered_snoc.
  - unfold onSave_catch, tell, mbind, mret, M_bind, M_ret.
    destruct (isConfigFileLockError e);
      [destruct (parseConfigLockFilePathFromError (result e)); [done|]|];
      cbn [snd]; by do 2 (apply answered_snoc; [|done]).
Qed.

Lemma call_all_fulfilling_dropped world cs log :
  call_all (fulfilling_dropped world) cs log = call_all world cs log.
Proof.
  revert log. induction cs as [|c cs IH]; intros log; [done|].
  cbn [call_all]. unfold mbind, M_bind.
  assert (issue (fulfilling_dropped world) (is_awaited c) c log
          = issue world (is_awaited c) c log) as ->.
  { unfold issue, fulfilling_dropped.
    by destruct (world log c), (is_awaited c). }
  destruct (issue world _ c log) as [[[]|e] log']; [apply IH|done].
Qed.

(** A save does not notice the rejection of a promise it dropped: it runs
    as it does when that promise is fulfilled. *)
Lemma onSave_fulfilling_dropped world p s log :
  onSave world p s log = onSave (fulfilling_dropped world) p s log.
Proof.
  cbv [onSave try_catch mbind M_bind mret M_ret].
  rewrite !onSave_try_plan, call_all_fulfilling_dropped.
  destruct (call_all world (plan p s) log) as [[[]|e] log1];
    [|destruct (onSave_catch s e log1) as [[[|s']|e'] log2]];
    cbv beta iota;
    by rewrite ?onSave_settings_plan, ?call_all_fulfilling_dropped.
Qed.

(** C6, as the code has it. The writes of one save are made one after the
    other in the order of [save_order], each at most once. Once a call has
    thrown into the handler, every call before it had returned and no write
    follows it. What the handler gets from a write is what the collaborators
    answered, but for the rejection of the promise of a call that is not
    awaited ([refreshAuthor], [setRepositoryIndicatorsEnabled]): the save
    runs as it does when that promise is fulfilled. *)
Theorem writes_in_order_until_failure world p s :
  logged is_write (onSave world p s []).2 `sublist_of` save_order p s
  ∧ (∀ log1 c e log2,
       (onSave world p s []).2 = log1 ++ (c, Some e) :: log2 →
       Forall (λ entry, entry.2 = None) log1 ∧ logged is_write log2 = [])
  ∧ answered world (onSave world p s []).2
  ∧ onSave world p s [] = onSave (fulfilling_dropped world) p s [].
Proof.
  pose proof (onSave_saved world p s) as Hsaved. split.
  { etrans; [by eapply saved_writes_sublist|apply plan_settings_order]. }
  split; [|split; [apply onSave_answered|apply onSave_fulfilling_dropped]].
  intros log1 c e log2 Hsplit. rewrite Hsplit in Hsaved. clear Hsplit.
  inversion Hsaved as [pre c0 post e0 path Hplan _ _ Ho Hlog
                      |pre c0 post e0 Hplan _ Ho Hlog
                      |pre c0 post e0 Hset Ho Hlog|Ho Hlog].
  - change [(c0, Some e0)] with ((c0, Some e0) :: oks []) in Hlog.
    apply one_failure in Hlog as (-> & -> & -> & ->).
    split; [by apply Forall_oks|done].
  - change [(c0, Some e0); (onDismissed, None); (postError e0, None)]
      with ((c0, Some e0) :: oks [onDismissed; postError e0]) in Hlog.
    apply one_failure in Hlog as (-> & -> & -> & ->).
    split; [by apply Forall_oks|done].
  - change [(c0, Some e0)] with ((c0, Some e0) :: oks []) in Hlog.
    rewrite app_assoc, <-oks_app in Hlog.
    apply one_failure in Hlog as (-> & -> & -> & ->).
    split; [by apply Forall_oks|done].
  - change [(onDismissed, None)] with (oks [onDismissed]) in Hlog.
    rewrite <-oks_app in Hlog. by apply oks_no_failure in Hlog.
Qed.

(** ** Failures *)

Lemma logged_nil (f : Call → bool) log :
  (∀ c r, (c, r) ∈ log → f c = false) → logged f log = [].
Proof.
  intros Hf. unfold logged, calls.
  induction log as [|[c r] log IH]; [done|]. rewrite fmap_cons. cbn [fst].
  rewrite filter_cons_False; [apply IH; set_solver|].
  rewrite (Hf c r) by set_solver. intros [].
Qed.

Lemma plan_prefix_in_try p s pre c0 post c (r r0 : Response) :
  plan p s = pre ++ c0 :: post → (c, r) ∈ oks pre ++ [(c0, r0)] →
  in_try_block c = true.
Proof.
  intros Hplan Hin. apply (plan_in_try p s). rewrite Hplan.
  rewrite elem_of_app, elem_of_oks, list_elem_of_singleton in Hin.
  set_solver.
Qed.

Lemma in_try_not_dismissal c : in_try_block c = true → is_dismissal c = false.
Proof. by destruct c. Qed.

Lemma in_try_not_report c : in_try_block c = true → is_error_report c = false.
Proof. by destruct c. Qed.


Lemma setting_not_dismissal c :
  is_setting_write c = true → is_dismissal c = false.
Proof. by destruct c. Qed.

Lemma setting_not_report c :
  is_setting_write c = true → is_error_report c = false.
Proof. by destruct c. Qed.

(** The log of a save that stopped in the settings holds neither a
    dismissal nor a report. *)
Lemma rejected_log_quiet p s pre c0 post e0 :
  settings s = pre ++ c0 :: post →
  logged is_dismissal (oks (plan p s) ++ oks pre ++ [(c0, Some e0)]) = []
  ∧ logged is_error_report (oks (plan p s) ++ oks pre ++ [(c0, Some e0)]) = [].
Proof.
  intros Hset.
  assert (∀ c (r : Response),
            (c, r) ∈ oks (plan p s) ++ oks pre ++ [(c0, Some e0)] →
            in_try_block c = true ∨ is_setting_write c = true) as Hkind.
  { intros c r.
    rewrite !elem_of_app, !elem_of_oks, list_elem_of_singleton.
    intros [[_ Hin]|[[_ Hin]|Heq]].
    - left. by eapply plan_in_try.
    - right. apply (settings_is_setting s). rewrite Hset. set_solver.
    - right. injection Heq as -> _. apply (settings_is_setting s).
      rewrite Hset. set_solver. }
  split; apply logged_nil; intros c r Hin;
    destruct (Hkind c r Hin);
    auto using in_try_not_dismissal, in_try_not_report,
      setting_not_dismissal, setting_not_report.
Qed.

(** C4, as the code has it. A call of the [try] block throws into the
    handler (an awaited write to the configuration that throws or whose
    promise is rejected, or one of the two calls that are not awaited
    throwing before it returns) an error that is not a lock error with an
    extractable path: [onSave] returns with the state as it was; the log
    ends with the failed call, one [onDismissed] and one [postError] of that
    error, and holds no other dismissal or report: nothing is called again.
    One of the settings written after the [try] statement fails, with
    whatever error: the error leaves [onSave] uncaught, the dialog is not
    dismissed and nothing is reported. What the handler gets from a write
    is what the collaborators answered, but for the rejection of the promise
    of a call that is not awaited ([refreshAuthor],
    [setRepositoryIndicatorsEnabled]): nothing catches it, and the save runs
    as it does when that promise is fulfilled. *)
Theorem guarded_failure_dismisses_once world p s :
  (∀ c e,
     failed (onSave world p s []).2 c e →
     in_try_block c = true →
     isConfigFileLockError e = false
     ∨ parseConfigLockFilePathFromError (result e) = None →
     (onSave world p s []).1 = Ret s
     ∧ logged is_dismissal (onSave world p s []).2 = [onDismissed]
     ∧ logged is_error_report (onSave world p s []).2 = [postError e]
     ∧ ∃ before,
         (onSave world p s []).2
         = oks before
           ++ [(c, Some e); (onDismissed, None); (postError e, None)])
  ∧ (∀ c e,
       failed (onSave world p s []).2 c e →
       in_try_block c = false →
       (onSave world p s []).1 = Throw e
       ∧ logged is_dismissal (onSave world p s []).2 = []
       ∧ logged is_error_report (onSave world p s []).2 = [])
  ∧ answered world (onSave world p s []).2
  ∧ onSave world p s [] = onSave (fulfilling_dropped world) p s [].
Proof.
  split; [|split; [|split; [apply onSave_answered
                           |apply onSave_fulfilling_dropped]]].
  - unfold failed. intros c e Hfailed Htry Hother.
    destruct (onSave_saved world p s)
      as [pre c0 post e0 path Hplan Hlock0 Hpath0|pre c0 post e0 Hplan Hnone
         |pre c0 post e0 Hset|].
    + rewrite elem_of_app, elem_of_oks, list_elem_of_singleton in Hfailed.
      destruct Hfailed as [[? _]|Heq]; [done|]; injection Heq as <- <-.
      destruct Hother; congruence.
    + rewrite elem_of_app, elem_of_oks, !elem_of_cons, elem_of_nil in Hfailed.
      destruct Hfailed as [[? _]|[Heq|[?|[?|[]]]]]; try done;
        injection Heq as <- <-.
      split; [done|].
      change [(c, Some e); (onDismissed, None); (postError e, None)]
        with ([(c, Some e)] ++ oks [onDismissed; postError e]).
      rewrite app_assoc, !(logged_app _ (oks pre ++ [(c, Some e)])).
      rewrite !(logged_nil _ (oks pre ++ [(c, Some e)])).
      * rewrite <-app_assoc. split_and!; [done..|by exists pre].
      * intros c' r Hin. by eapply in_try_not_report, plan_prefix_in_try.
      * intros c' r Hin. by eapply in_try_not_dismissal, plan_prefix_in_try.
    + rewrite !elem_of_app, !elem_of_oks, list_elem_of_singleton in Hfailed.
      destruct Hfailed as [[? _]|[[? _]|Heq]]; try done;
        injection Heq as <- <-.
      rewrite (settings_not_in_try s c) in Htry; [done|].
      rewrite Hset. set_solver.
    + rewrite elem_of_app, elem_of_oks, list_elem_of_singleton in Hfailed.
      by destruct Hfailed as [[? _]|?].
  - unfold failed. intros c e Hfailed Hout.
    destruct (onSave_saved world p s)
      as [pre c0 post e0 path Hplan Hlock0 Hpath0|pre c0 post e0 Hplan Hnone
         |pre c0 post e0 Hset|].
    + rewrite elem_of_app, elem_of_oks, list_elem_of_singleton in Hfailed.
      destruct Hfailed as [[? _]|Heq]; [done|]; injection Heq as <- <-.
      rewrite (plan_in_try p s c) in Hout; [done|]. rewrite Hplan. set_solver.
    + rewrite elem_of_app, elem_of_oks, !elem_of_cons, elem_of_nil in Hfailed.
      destruct Hfailed as [[? _]|[Heq|[?|[?|[]]]]]; try done;
        injection Heq as <- <-.
      rewrite (plan_in_try p s c) in Hout; [done|]. rewrite Hplan. set_solver.
    + rewrite !elem_of_app, !elem_of_oks, list_elem_of_singleton in Hfailed.
      destruct Hfailed as [[? _]|[[? _]|Heq]]; try done;
        injection Heq as <- <-.
      split; [done|]. by eapply rejected_log_quiet.
    + rewrite elem_of_app, elem_of_oks, list_elem_of_singleton in Hfailed.
      by destruct Hfailed as [[? _]|?].
Qed.

(** ** Which fields a save writes *)

Lemma call_all_reliable cs log :
  call_all reliable cs log = (Ret tt, log ++ oks cs).
Proof.
  revert log. induction cs as [|c cs IH]; intros log; cbn.
  - by rewrite app_nil_r.
  - unfold mbind, M_bind, issue, reliable. cbn [observe].
    rewrite IH. by rewrite <-app_assoc.
Qed.

(** With collaborators that never fail, a save goes through its whole
    plan, writes the settings and dismisses the dialog. *)
Lemma onSave_reliable p s :
  onSave reliable p s []
  = (Ret s, oks (plan p s ++ settings s) ++ [(onDismissed, None)]).
Proof.
  cbv [onSave try_catch mbind M_bind mret M_ret].
  rewrite onSave_try_plan, call_all_reliable.
  rewrite onSave_settings_plan, call_all_reliable.
  cbv [tell]. by rewrite oks_app.
Qed.

Lemma written_iff s (f : Field) log :
  written s f log = true
  ↔ ∃ c (r : Response), (c, r) ∈ log ∧ writes_field s f c = true.
Proof.
  unfold written, calls. rewrite existsb_exists. split.
  - intros (c & Hin & Hw). apply list_elem_of_In, list_elem_of_fmap in Hin.
    destruct Hin as ([c' r] & -> & Hin). by exists c', r.
  - intros (c & r & Hin & Hw). exists c. split; [|done].
    apply list_elem_of_In, list_elem_of_fmap. by exists (c, r).
Qed.

Ltac pick_case := first [done|left; pick_case|right; pick_case].

(** C1, as the code has it. A save writes the committer name, the
    committer email and the repository-indicators setting when they changed;
    the default branch, the merge tool name and the merge tool command when
    they changed and are not empty; it removes the key [merge.tool] when
    the custom tool is off and one of the three merge-tool fields changed; it writes the external editor whenever one is selected, and the
    remaining settings every time. With collaborators that may fail, a
    field is written only under these conditions; when none fails, exactly
    under them. *)
Theorem field_written_when world p s (f : Field) :
  (written s f (onSave world p s []).2 = true → saved_when f p s)
  ∧ (written s f (onSave reliable p s []).2 = true ↔ saved_when f p s).
Proof.
  assert (∀ world, written s f (onSave world p s []).2 = true
                   → saved_when f p s) as Honly.
  { clear world. intros world (c & r & Hin & Hw)%written_iff.
    destruct f; entry_cases Hin; subst c; cbn in Hw; try discriminate Hw;
      cbn; unfold changed in *; try done; try tauto.
    match goal with
    | H : selectedExternalEditor s = Some _ |- _ => rewrite H
    end.
    by apply bool_decide_eq_true. }
  split; [apply Honly|]. split; [apply Honly|].
  intros Hwhen. apply written_iff. rewrite onSave_reliable. cbn [snd].
  setoid_rewrite elem_of_app. setoid_rewrite elem_of_oks.
  setoid_rewrite elem_of_app. setoid_rewrite elem_of_plan.
  setoid_rewrite elem_of_settings.
  destruct f; cbn in Hwhen.
  - exists (setGlobalConfigValue "user.name" (committerName s)), None.
    split; [left; split; [done|left; pick_case]|done].
  - exists (setGlobalConfigValue "user.email" (committerEmail s)), None.
    split; [left; split; [done|left; pick_case]|done].
  - exists (setDefaultBranch (defaultBranch s)), None.
    split; [left; split; [done|left; pick_case]|done].
  - exists (setRepositoryIndicatorsEnabled (repositoryIndicatorsEnabled s)),
      None.
    split; [left; split; [done|left; pick_case]|done].
  - exists (setGlobalConfigValue "merge.tool" (mergeToolName s)), None.
    split; [left; split; [done|left; pick_case]|done].
  - exists (setGlobalConfigValue
              ("mergetool." +:+ mergeToolName s +:+ ".cmd")
              (mergeToolCommand s)), None.
    split; [left; split; [done|left; pick_case]|].
    cbn [writes_field]. apply String.eqb_refl.
  - exists (removeGlobalConfigValue "merge.tool"), None.
    split; [left; split; [done|left]|done].
    do 7 right. split; [by left|done].
  - exists (setStatsOptOut (optOutOfUsageTracking s) false), None.
    split; [left; split; [done|right; pick_case]|done].
  - exists (setConfirmRepoRemovalSetting (confirmRepositoryRemoval s)), None.
    split; [left; split; [done|right; pick_case]|done].
  - exists (setConfirmDiscardChangesSetting (confirmDiscardChanges s)), None.
    split; [left; split; [done|right; pick_case]|done].
  - exists (setConfirmForcePushSetting (confirmForcePush s)), None.
    split; [left; split; [done|right; pick_case]|done].
  - destruct (selectedExternalEditor s) as [ed|] eqn:Hed; [|done].
    cbn in Hwhen. apply bool_decide_eq_true in Hwhen.
    exists (setExternalEditor ed), None.
    split; [left; split; [done|right]|done].
    do 3 right. left. by exists ed.
  - exists (setShell (selectedShell s)), None.
    split; [left; split; [done|right; pick_case]|done].
  - exists (setUncommittedChangesStrategySetting
              (uncommittedChangesStrategy s)), None.
    split; [left; split; [done|right; pick_case]|done].
Qed.

(** ** Edits before the save *)

Lemma handle_calls (a : Action) s log :
  is_field_edit a = true →
  ∃ s', handle a s log
        = (Ret s', log ++ oks (setSelectedTheme <$> themes_chosen [a])).
Proof.
  destruct a; try discriminate; intros _; cbn;
    rewrite ?app_nil_r; by eexists.
Qed.

(** C5, as the code has it. Between the opening of the dialog and the
    save, an edit of a field changes the state of the component only and
    calls no collaborator, but for the choice of a theme: the log of a
    session of edits grows by one [setSelectedTheme] for each theme chosen,
    sent at once, and by nothing else. *)
Theorem edits_stay_local_except_theme acts s log :
  Forall (λ a, is_field_edit a = true) acts →
  ∃ s', handle_all acts s log
        = (Ret s', log ++ oks (setSelectedTheme <$> themes_chosen acts)).
Proof.
  intros Hacts. revert s log.
  induction Hacts as [|a acts Ha _ IH]; intros s log.
  - exists s. cbn. by rewrite app_nil_r.
  - destruct (handle_calls a s log Ha) as [s1 H1].
    destruct (IH s1 (log ++ oks (setSelectedTheme <$> themes_chosen [a])))
      as [s2 H2].
    exists s2. cbn [handle_all]. unfold mbind, M_bind. rewrite H1, H2.
    rewrite <-app_assoc, <-oks_app, <-fmap_app.
    change (a :: acts) with ([a] ++ acts).
    unfold themes_chosen. by rewrite omap_app.
Qed.

(** ** Loading *)

Lemma or_empty_truthy (v : option string) :
  truthy v = true → Some (or_empty v) = v.
Proof. destruct v as [a|]; cbn; [|done]. by case_bool_decide. Qed.

Lemma or_empty_falsy (v : option string) : truthy v = false → or_empty v = "".
Proof. destruct v as [a|]; cbn; [|done]. by case_bool_decide. Qed.

Lemma or_empty_Some (a : string) : or_empty (Some a) = a.
Proof.
  unfold or_empty, or_else. case_bool_decide as Ha; [done|].
  destruct (decide (a = "")); [done|]. by destruct Ha.
Qed.

Lemma opened_committerName p st editors shells :
  committerName (opened p st editors shells)
  = or_empty (if truthy (getGlobalConfigValue st "user.name")
              then getGlobalConfigValue st "user.name"
              else match account p with
                   | Some a => Some (login a)
                   | None => getGlobalConfigValue st "user.name"
                   end).
Proof.
  unfold opened, componentWillMount. cbn [committerName committerEmail].
  destruct (truthy (getGlobalConfigValue st "user.name")),
    (truthy (getGlobalConfigValue st "user.email")), (account p); done.
Qed.

Lemma opened_committerEmail p st editors shells :
  committerEmail (opened p st editors shells)
  = or_empty (if truthy (getGlobalConfigValue st "user.email")
              then getGlobalConfigValue st "user.email"
              else match account p with
                   | Some a => lookupPreferredEmail a
                   | None => getGlobalConfigValue st "user.email"
                   end).
Proof.
  unfold opened, componentWillMount. cbn [committerName committerEmail].
  destruct (truthy (getGlobalConfigValue st "user.name")),
    (truthy (getGlobalConfigValue st "user.email")), (account p); done.
Qed.

(** C8. On load, when the global configuration has no [user.name] and an
    account is present, GitHub.com's before the enterprise one, the committer
    name is the login of that account; when it has no [user.email], the
    committer email is the preferred email of that account, or the empty
    string if the lookup gives none. Without any account and without a
    configured value the fields are the empty string. The fields are of type
    [string]: they are never null. *)
Theorem committer_prefilled_from_account p st editors shells :
  (is_Some (props.dotComAccount p) ∨ is_Some (props.enterpriseAccount p) →
   ∃ a, account p = Some a
        ∧ (getGlobalConfigValue st "user.name" = None →
           committerName (opened p st editors shells) = login a)
        ∧ (getGlobalConfigValue st "user.email" = None →
           committerEmail (opened p st editors shells)
           = or_empty (lookupPreferredEmail a)))
  ∧ (props.dotComAccount p = None → props.enterpriseAccount p = None →
     (getGlobalConfigValue st "user.name" = None →
      committerName (opened p st editors shells) = "")
     ∧ (getGlobalConfigValue st "user.email" = None →
        committerEmail (opened p st editors shells) = "")).
Proof.
  rewrite opened_committerName, opened_committerEmail. split.
  - intros Hacc.
    assert (∃ a, account p = Some a) as [a Ha].
    { unfold account. destruct Hacc as [[a Ha]|[a Ha]]; [rewrite Ha; eauto|].
      destruct (props.dotComAccount p); [eauto|rewrite Ha; eauto]. }
    exists a. rewrite Ha. split; [done|].
    split; intros ->; cbn [truthy]; [apply or_empty_Some|done].
  - intros Hdot Hent. unfold account. rewrite Hdot, Hent.
    split; by intros ->.
Qed.

(** C7, as the code has it. When loading completes, every shadow holds
    what was read from the configuration: [user.name], [user.email], the
    default branch, [merge.tool], the command under [mergetool.<name>.cmd]
    when [merge.tool] is a non-empty string [name] and null otherwise, and
    for the flag whether [merge.tool] is a non-empty string. The default
    branch and the custom-merge-tool flag equal their shadows. The committer
    name, the committer email, the merge tool name and the merge tool
    command equal their shadow when it is a non-empty string; otherwise the
    committer name is the login of the account and the committer email its
    preferred email, the empty string when there is none, and the merge
    tool name and command are the empty string. When [user.name],
    [user.email] and [merge.tool] are all set to non-empty strings, a save
    without edits writes nothing to the configuration, whatever the
    collaborators answer. *)
Theorem loaded_fields_mirror_shadows p st editors shells :
  (initialCommitterName (opened p st editors shells)
     = getGlobalConfigValue st "user.name"
   ∧ initialCommitterEmail (opened p st editors shells)
     = getGlobalConfigValue st "user.email"
   ∧ initialDefaultBranch (opened p st editors shells)
     = Some (getDefaultBranch st)
   ∧ initialMergeToolName (opened p st editors shells)
     = getGlobalConfigValue st "merge.tool"
   ∧ (∀ name,
        getGlobalConfigValue st "merge.tool" = Some name → name ≠ "" →
        initialMergeToolCommand (opened p st editors shells)
        = getGlobalConfigValue st ("mergetool." +:+ name +:+ ".cmd"))
   ∧ (truthy (getGlobalConfigValue st "merge.tool") = false →
      initialMergeToolCommand (opened p st editors shells) = None)
   ∧ initialUseCustomMergeTool (opened p st editors shells)
     = truthy (getGlobalConfigValue st "merge.tool"))
  ∧ (Some (defaultBranch (opened p st editors shells))
     = initialDefaultBranch (opened p st editors shells)
     ∧ useCustomMergeTool (opened p st editors shells)
       = initialUseCustomMergeTool (opened p st editors shells))
  ∧ ((truthy (initialCommitterName (opened p st editors shells)) = true →
      Some (committerName (opened p st editors shells))
      = initialCommitterName (opened p st editors shells))
     ∧ (truthy (initialCommitterName (opened p st editors shells)) = false →
        committerName (opened p st editors shells)
        = match account p with Some a => login a | None => "" end))
  ∧ ((truthy (initialCommitterEmail (opened p st editors shells)) = true →
      Some (committerEmail (opened p st editors shells))
      = initialCommitterEmail (opened p st editors shells))
     ∧ (truthy (initialCommitterEmail (opened p st editors shells)) = false →
        committerEmail (opened p st editors shells)
        = match account p with
          | Some a => or_empty (lookupPreferredEmail a)
          | None => ""
          end))
  ∧ ((truthy (initialMergeToolName (opened p st editors shells)) = true →
      Some (mergeToolName (opened p st editors shells))
      = initialMergeToolName (opened p st editors shells))
     ∧ (truthy (initialMergeToolName (opened p st editors shells)) = false →
        mergeToolName (opened p st editors shells) = ""))
  ∧ ((truthy (initialMergeToolCommand (opened p st editors shells)) = true →
      Some (mergeToolCommand (opened p st editors shells))
      = initialMergeToolCommand (opened p st editors shells))
     ∧ (truthy (initialMergeToolCommand (opened p st editors shells)) = false →
        mergeToolCommand (opened p st editors shells) = ""))
  ∧ (truthy (getGlobalConfigValue st "user.name") = true →
     truthy (getGlobalConfigValue st "user.email") = true →
     truthy (getGlobalConfigValue st "merge.tool") = true →
     ∀ world,
       logged is_config_write
         (onSave world p (opened p st editors shells) []).2 = []).
Proof.
  split.
  { split_and!; try done.
    - intros name Hname Hfull. cbn. rewrite Hname. cbn.
      by rewrite bool_decide_eq_true_2.
    - cbn. destruct (getGlobalConfigValue st "merge.tool") as [name|]; [|done].
      cbn. by intros ->. }
  split; [done|].
  assert (∀ v, truthy v = true → Some (or_empty v) = v) as Hmirror
    by apply or_empty_truthy.
  assert (∀ v, truthy v = false → or_empty v = "") as Hempty
    by apply or_empty_falsy.
  split; [|split; [|split; [by split; [apply Hmirror|apply Hempty]
                           |split; [by split; [apply Hmirror|apply Hempty]|]]]].
  - rewrite opened_committerName. cbn. split; intros Hname; rewrite Hname.
    + auto.
    + destruct (account p) as [a|]; [apply or_empty_Some|auto].
  - rewrite opened_committerEmail. cbn. split; intros Hemail; rewrite Hemail.
    + auto.
    + destruct (account p) as [a|]; [done|auto].
  - intros Hname Hemail Htool world. apply logged_nil. intros c r Hin.
    destruct (is_config_write c) eqn:Hc; [exfalso|done].
    entry_cases Hin; subst c; try discriminate Hc;
      unfold saved_when, changed in *; destruct_and?.
    + rewrite opened_committerName, Hname in *. cbn in *. auto.
    + rewrite opened_committerEmail, Hemail in *. cbn in *. auto.
    + cbn in *. done.
    + cbn in *. auto.
    + cbn in *.
      destruct (truthy (or_else (getGlobalConfigValue st "merge.tool")
                  (λ name, getGlobalConfigValue st
                             ("mergetool." +:+ name +:+ ".cmd")) None))
        eqn:Hcmd; [auto|].
      by apply or_empty_falsy in Hcmd.
    + cbn in *. congruence.
    + cbn in *. congruence.
Qed.

(** ** Turning the custom merge tool off *)

Lemma length_append (a b : string) :
  String.length (a +:+ b) = String.length a + String.length b.
Proof.
  induction a as [|x a IH]; [done|].
  change (S (String.length (a +:+ b)) = S (String.length a + String.length b)).
  by rewrite IH.
Qed.

(** Whatever the initial merge tool is called, no save removes the key
    [mergetool.<name>.cmd] that loading read its command from: the key
    [onSave] removes lacks the dot. *)
Lemma command_key_never_removed world p s name (r : Response) :
  initialMergeToolName s = Some name →
  (removeGlobalConfigValue ("mergetool." +:+ name +:+ ".cmd"), r)
  ∉ (onSave world p s []).2.
Proof.
  intros Hname Hin. entry_cases Hin.
  match goal with
  | H : removeGlobalConfigValue _ = _ |- _ => injection H as Hkey
  end.
  rewrite Hname in Hkey. apply (f_equal String.length) in Hkey.
  rewrite !length_append in Hkey. cbn in Hkey. lia.
Qed.

(** * Further properties of the dialog *)

(** ** How a save ends *)

Lemma plan_settings_quiet p s :
  logged is_dismissal (oks (plan p s ++ settings s)) = []
  ∧ logged is_error_report (oks (plan p s ++ settings s)) = [].
Proof.
  assert (∀ c (r : Response),
            (c, r) ∈ oks (plan p s ++ settings s) →
            in_try_block c = true ∨ is_setting_write c = true) as Hkind.
  { intros c r. rewrite elem_of_oks, elem_of_app. intros [_ [Hin|Hin]].
    - left. by eapply plan_in_try.
    - right. by eapply settings_is_setting. }
  split; apply logged_nil; intros c r Hin;
    destruct (Hkind c r Hin);
    auto using in_try_not_dismissal, in_try_not_report,
      setting_not_dismissal, setting_not_report.
Qed.

Lemma plan_prefix_quiet p s pre c0 post (r0 : Response) :
  plan p s = pre ++ c0 :: post →
  logged is_dismissal (oks pre ++ [(c0, r0)]) = []
  ∧ logged is_error_report (oks pre ++ [(c0, r0)]) = [].
Proof.
  intros Hplan. split; apply logged_nil; intros c r Hin.
  - by eapply in_try_not_dismissal, plan_prefix_in_try.
  - by eapply in_try_not_report, plan_prefix_in_try.
Qed.

Lemma onSave_no_failure world p s :
  (∀ c e, ¬ failed (onSave world p s []).2 c e) →
  onSave world p s []
  = (Ret s, oks (plan p s ++ settings s) ++ [(onDismissed, None)]).
Proof.
  unfold failed. intros Hno. pose proof (onSave_saved world p s) as Hsaved.
  destruct (onSave world p s []) as [o log]. cbn [fst snd] in *.
  destruct Hsaved as [pre c0 post e0 path _ _ _|pre c0 post e0 _ _
                     |pre c0 post e0 _|]; [..|done];
    destruct (Hno c0 e0); set_solver.
Qed.

(** X1. When no call of a save fails, [onSave] makes every call of the
    [try] block and every settings call in the order of the source, then
    dismisses the dialog, once and as its last call; it reports no error and
    returns the state as it was. *)
Theorem save_without_failure world p s :
  (∀ c e, ¬ failed (onSave world p s []).2 c e) →
  onSave world p s []
  = (Ret s, oks (plan p s ++ settings s) ++ [(onDismissed, None)])
  ∧ logged is_dismissal (onSave world p s []).2 = [onDismissed]
  ∧ logged is_error_report (onSave world p s []).2 = [].
Proof.
  intros Hno. rewrite (onSave_no_failure world p s Hno). split; [done|].
  cbn [snd]. change [(onDismissed, None)] with (oks [onDismissed]).
  rewrite !logged_app.
  destruct (plan_settings_quiet p s) as [-> ->]. done.
Qed.

(** X2. Whatever the collaborators answer, a save dismisses the dialog at
    most once and reports an error only together with a dismissal. When it
    returns, the state is the one it started from, or that state with the
    Git tab selected and a lock file path recorded, and in that case the
    dialog was not dismissed. When its promise is rejected, the dialog was
    not dismissed either. *)
Theorem save_outcome world p s :
  (count is_dismissal (onSave world p s []).2 ≤ 1)%nat
  ∧ (count is_error_report (onSave world p s []).2
     ≤ count is_dismissal (onSave world p s []).2)%nat
  ∧ (∀ s', (onSave world p s []).1 = Ret s' →
       (s' = s ∧ count is_dismissal (onSave world p s []).2 = 1)
       ∨ (∃ lockFilePath,
            s' = s <| existingLockFilePath := Some lockFilePath |>
                   <| selectedIndex := Git |>
            ∧ count is_dismissal (onSave world p s []).2 = 0))
  ∧ (∀ e, (onSave world p s []).1 = Throw e →
       count is_dismissal (onSave world p s []).2 = 0).
Proof.
  pose proof (onSave_saved world p s) as Hsaved.
  destruct (onSave world p s []) as [o log]. cbn [fst snd] in *. unfold count.
  destruct Hsaved as [pre c0 post e0 path Hplan _ _|pre c0 post e0 Hplan _
                     |pre c0 post e0 Hset|].
  - destruct (plan_prefix_quiet p s pre c0 post (Some e0) Hplan) as [-> ->].
    split; [vm_compute; lia|]. split; [vm_compute; lia|]. split; [|done].
    intros s' [= <-]. right. by exists path.
  - change [(c0, Some e0); (onDismissed, None); (postError e0, None)]
      with ([(c0, Some e0)] ++ oks [onDismissed; postError e0]).
    rewrite app_assoc, !(logged_app _ (oks pre ++ [(c0, Some e0)])).
    destruct (plan_prefix_quiet p s pre c0 post (Some e0) Hplan) as [-> ->].
    split; [vm_compute; lia|]. split; [vm_compute; lia|]. split; [|done].
    intros s' [= <-]. by left.
  - destruct (rejected_log_quiet p s pre c0 post e0 Hset) as [-> ->].
    split; [vm_compute; lia|]. split; [vm_compute; lia|]. split; [done|]. by intros e [= <-].
  - change [(onDismissed, None)] with (oks [onDismissed]).
    rewrite !logged_app. destruct (plan_settings_quiet p s) as [-> ->].
    split; [vm_compute; lia|]. split; [vm_compute; lia|]. split; [|done].
    intros s' [= <-]. by left.
Qed.

(** ** Refreshing the author *)

Lemma split_before {A} (l1 l2 pre post : list A) (x c0 : A) :
  l1 ++ x :: l2 = pre ++ c0 :: post → x ∉ l1 → x ∈ pre ++ [c0] →
  ∃ rest, pre = l1 ++ rest.
Proof.
  revert pre. induction l1 as [|y l1 IH]; intros pre Heq Hnot Hin.
  - by exists pre.
  - destruct pre as [|y' pre]; cbn in *; simplify_eq.
    + apply list_elem_of_singleton in Hin. subst. set_solver.
    + destruct (IH pre) as [rest ->]; [done|set_solver|set_solver|].
      by exists rest.
Qed.

(** In the log of a save, the calls of the [try] block made before a
    logged one all returned. *)
Lemma saved_earlier_returned p s o log l1 x l2 (r : Response) :
  Saved p s o log → plan p s = l1 ++ x :: l2 → x ∉ l1 → (x, r) ∈ log →
  ∀ y, y ∈ l1 → (y, None) ∈ log.
Proof.
  intros Hsaved Hsplit Hnot Hin y Hy.
  assert (in_try_block x = true) as Hx.
  { apply (plan_in_try p s). rewrite Hsplit. set_solver. }
  destruct Hsaved as [pre c0 post e0 path Hplan _ _|pre c0 post e0 Hplan _
                     |pre c0 post e0 Hset|].
  - rewrite Hplan in Hsplit.
    destruct (split_before l1 l2 pre post x c0) as [rest ->]; [done..| |].
    { rewrite elem_of_app, elem_of_oks, list_elem_of_singleton in Hin.
      rewrite elem_of_app, list_elem_of_singleton.
      destruct Hin as [[_ ?]|[= -> _]]; auto. }
    rewrite elem_of_app, elem_of_oks, elem_of_app. auto.
  - rewrite Hplan in Hsplit.
    destruct (split_before l1 l2 pre post x c0) as [rest ->]; [done..| |].
    { rewrite elem_of_app, elem_of_oks, !elem_of_cons, elem_of_nil in Hin.
      rewrite elem_of_app, list_elem_of_singleton.
      destruct Hin as [[_ ?]|[[= -> _]|[[= -> _]|[[= -> _]|[]]]]]; auto;
        discriminate Hx. }
    rewrite elem_of_app, elem_of_oks, elem_of_app. auto.
  - rewrite elem_of_app, elem_of_oks. left. split; [done|].
    rewrite Hsplit. set_solver.
  - rewrite elem_of_app, elem_of_oks, elem_of_app. left. split; [done|].
    left. rewrite Hsplit. set_solver.
Qed.

(** X3. [refreshAuthor] is called only for the repository of the dialog,
    and only after a write of [user.name] or of [user.email] with the
    drafted value was made and returned: never when there is no repository,
    never when neither changed, never when the write failed. *)
Theorem author_refreshed_after_identity_write world p s r (a : Response) :
  (refreshAuthor r, a) ∈ (onSave world p s []).2 →
  props.repository p = Some r
  ∧ ((setGlobalConfigValue "user.name" (committerName s), None)
     ∈ (onSave world p s []).2
     ∨ (setGlobalConfigValue "user.email" (committerEmail s), None)
       ∈ (onSave world p s []).2).
Proof.
  intros Hin. pose proof (onSave_saved world p s) as Hsaved.
  set (l1 := opt (strict_ne (committerName s) (initialCommitterName s))
               (setGlobalConfigValue "user.name" (committerName s))
             ++ opt (strict_ne (committerEmail s) (initialCommitterEmail s))
                  (setGlobalConfigValue "user.email" (committerEmail s))).
  assert (refreshAuthor r ∉ l1) as Hnot.
  { unfold l1. rewrite elem_of_app, !elem_of_opt. intros [[_ ?]|[_ ?]]; done. }
  assert (props.repository p = Some r
          ∧ (changed CommitterName p s ∨ changed CommitterEmail p s))
    as [Hrepo Hchanged].
  { pose proof Hin as Hin'. entry_cases Hin';
      match goal with
      | Hr : props.repository p = Some ?x, He : refreshAuthor r = _ |- _ =>
          injection He as <-
      end; auto. }
  split; [done|].
  assert (∃ l2, plan p s = l1 ++ refreshAuthor r :: l2) as [l2 Hsplit].
  { unfold plan, l1. rewrite Hrepo. eexists. rewrite <-!app_assoc.
    do 2 f_equal.
    assert (strict_ne (committerName s) (initialCommitterName s)
            || strict_ne (committerEmail s) (initialCommitterEmail s) = true)
      as ->.
    { apply orb_true_iff. by rewrite !strict_ne_true. }
    reflexivity. }
  pose proof (saved_earlier_returned p s _ _ l1 _ l2 a Hsaved Hsplit Hnot Hin)
    as Hearlier.
  destruct Hchanged as [Hname|Hemail]; [left|right]; apply Hearlier;
    unfold l1; rewrite elem_of_app, !elem_of_opt, !strict_ne_true; auto.
Qed.

(** ** What the actions of the user do *)

(** One action: it returns, extends the log, and its calls are reports,
    a theme change or the removal of an account. *)
Lemma handle_run (a : Action) s log :
  ∃ s' ext,
    handle a s log = (Ret s', log ++ oks ext)
    ∧ logged in_try_block (oks ext) = []
    ∧ logged is_setting_write (oks ext) = []
    ∧ count is_dismissal (oks ext) = (if is_sign_in a then 1 else 0)
    ∧ initialCommitterName s' = initialCommitterName s
    ∧ initialCommitterEmail s' = initialCommitterEmail s
    ∧ initialDefaultBranch s' = initialDefaultBranch s
    ∧ initialMergeToolName s' = initialMergeToolName s
    ∧ initialMergeToolCommand s' = initialMergeToolCommand s
    ∧ initialUseCustomMergeTool s' = initialUseCustomMergeTool s.
Proof.
  destruct a as [| |a|b| |e|b|b|b|b|v|v|v|b|v|v|v|v|v|v|i].
  1: exists s, [onDismissed; showDotComSignInDialog].
  2: exists s, [onDismissed; showEnterpriseSignInDialog].
  3: exists s, [removeAccount a].
  6: exists s, [postError e].
  20: exists s, [setSelectedTheme v].
  all: try (eexists _, []; rewrite app_nil_r).
  all: split;
    [cbv [handle onDotComSignIn onEnterpriseSignIn onLogout
          onLockFileDeleteError onSelectedThemeChanged tell
          mbind M_bind mret M_ret];
     by rewrite <-?app_assoc
    |by split_and!].
Qed.

(** X4. Whatever the user does in the dialog before saving, in any order
    and any number of times, every handler returns and the six initial
    values captured at load time stay as they were: the baseline of the
    change detection is never moved. *)
Theorem actions_keep_shadows acts s log :
  ∃ s' log',
    handle_all acts s log = (Ret s', log')
    ∧ initialCommitterName s' = initialCommitterName s
    ∧ initialCommitterEmail s' = initialCommitterEmail s
    ∧ initialDefaultBranch s' = initialDefaultBranch s
    ∧ initialMergeToolName s' = initialMergeToolName s
    ∧ initialMergeToolCommand s' = initialMergeToolCommand s
    ∧ initialUseCustomMergeTool s' = initialUseCustomMergeTool s.
Proof.
  revert s log. induction acts as [|a acts IH]; intros s log.
  - exists s, log. by split_and!.
  - destruct (handle_run a s log)
      as (s1 & ext & Hrun & _ & _ & _ & <- & <- & <- & <- & <- & <-).
    destruct (IH s1 (log ++ oks ext)) as (s2 & log2 & Hrest & Hshadows).
    exists s2, log2. split; [|done].
    cbn [handle_all]. unfold mbind, M_bind. by rewrite Hrun.
Qed.

(** X5. No action of the user before the save, field edit or not, writes
    to the configuration or to the settings of the application, or refreshes
    the author: those calls are made by the save only. The dialog is
    dismissed once for each sign-in button pressed and by nothing else, and
    every call made returns. *)
Theorem actions_write_no_configuration acts s log :
  ∃ s' ext,
    handle_all acts s log = (Ret s', log ++ oks ext)
    ∧ logged in_try_block (oks ext) = []
    ∧ logged is_setting_write (oks ext) = []
    ∧ count is_dismissal (oks ext) = sign_ins acts.
Proof.
  revert s log. induction acts as [|a acts IH]; intros s log.
  - exists s, []. rewrite app_nil_r. by split_and!.
  - destruct (handle_run a s log)
      as (s1 & ext1 & Hrun & Htry1 & Hset1 & Hdis1 & _).
    destruct (IH s1 (log ++ oks ext1))
      as (s2 & ext2 & Hrest & Htry2 & Hset2 & Hdis2).
    exists s2, (ext1 ++ ext2). split_and!.
    + cbn [handle_all]. unfold mbind, M_bind.
      by rewrite Hrun, Hrest, oks_app, app_assoc.
    + by rewrite oks_app, logged_app, Htry1, Htry2.
    + by rewrite oks_app, logged_app, Hset1, Hset2.
    + unfold count in *. rewrite oks_app, logged_app, length_app, Hdis1, Hdis2.
      unfold sign_ins. rewrite filter_cons. by destruct a.
Qed.

(** Actions that are not edits of the committer name keep the name and
    the message about it. *)
Lemma other_actions_keep_name acts s log :
  Forall (λ a, is_name_edit a = false) acts →
  ∃ s' log',
    handle_all acts s log = (Ret s', log')
    ∧ committerName s' = committerName s
    ∧ disallowedCharactersMessage s' = disallowedCharactersMessage s.
Proof.
  intros Hacts. revert s log.
  induction Hacts as [|a acts Ha _ IH]; intros s log.
  - by exists s, log.
  - assert (∃ s1 log1, handle a s log = (Ret s1, log1)
                       ∧ committerName s1 = committerName s
                       ∧ disallowedCharactersMessage s1
                         = disallowedCharactersMessage s)
      as (s1 & log1 & Hrun & <- & <-).
    { destruct a; try discriminate Ha; cbn; by eexists _, _. }
    destruct (IH s1 log1) as (s2 & log2 & Hrest & Hkept).
    exists s2, log2. split; [|done].
    cbn [handle_all]. unfold mbind, M_bind. by rewrite Hrun.
Qed.

(** X6. Once a committer name is entered, and until the name is edited
    again, whatever else the user does (other edits, tab clicks, sign-in,
    logout): the name stays as entered, the error shown above the tabs is
    the invalid-name message exactly when the name is invalid, and on every
    tab that has a footer the Save button is disabled exactly when the name
    is invalid. *)
Theorem invalid_name_disables_save v acts s log :
  Forall (λ a, is_name_edit a = false) acts →
  ∃ s' log',
    handle_all (CommitterNameChanged v :: acts) s log = (Ret s', log')
    ∧ committerName s' = v
    ∧ renderDisallowedCharactersError s'
      = (if gitAuthorNameIsValid v then None
         else Some InvalidGitAuthorNameMessage)
    ∧ ∀ f, renderFooter s' = Some f →
           okButtonDisabled f = negb (gitAuthorNameIsValid v).
Proof.
  intros Hacts.
  destruct (other_actions_keep_name acts (onCommitterNameChanged v s) log Hacts)
    as (s' & log' & Hrun & Hname & Hmessage).
  exists s', log'. split; [exact Hrun|]. split; [exact Hname|].
  unfold renderDisallowedCharactersError, renderFooter. rewrite Hmessage.
  cbn. split.
  - by destruct (gitAuthorNameIsValid v).
  - intros f Hf.
    destruct (selectedIndex s'), (gitAuthorNameIsValid v);
      by simplify_eq.
Qed.

(** ** After a lock conflict *)

Lemma lock_conflict_outcome world p s c e lockFilePath :
  failed (onSave world p s []).2 c e →
  in_try_block c = true →
  isConfigFileLockError e = true →
  parseConfigLockFilePathFromError (result e) = Some lockFilePath →
  (onSave world p s []).1
  = Ret (s <| existingLockFilePath := Some lockFilePath |>
           <| selectedIndex := Git |>)
  ∧ ∃ before, (onSave world p s []).2 = oks before ++ [(c, Some e)].
Proof.
  unfold failed. intros Hfailed Htry Hlock Hpath.
  destruct (onSave_saved world p s)
    as [pre c0 post e0 path Hplan Hlock0 Hpath0|pre c0 post e0 Hplan Hnone
       |pre c0 post e0 Hset|].
  - rewrite elem_of_app, elem_of_oks, list_elem_of_singleton in Hfailed.
    destruct Hfailed as [[? _]|Heq]; [done|]; injection Heq as <- <-.
    assert (path = lockFilePath) as -> by congruence. split; [done|].
    by exists pre.
  - rewrite elem_of_app, elem_of_oks, !elem_of_cons, elem_of_nil in Hfailed.
    destruct Hfailed as [[? _]|[Heq|[?|[?|[]]]]]; try done;
      injection Heq as <- <-.
    rewrite Hnone in Hpath; done.
  - rewrite !elem_of_app, !elem_of_oks, list_elem_of_singleton in Hfailed.
    destruct Hfailed as [[? _]|[[? _]|Heq]]; try done; injection Heq as <- <-.
    rewrite (settings_not_in_try s c) in Htry; [done|].
    rewrite Hset. set_solver.
  - rewrite elem_of_app, elem_of_oks, list_elem_of_singleton in Hfailed.
    by destruct Hfailed as [[? _]|?].
Qed.

(** X7. After a save that met a locked configuration file (a call of the
    [try] block failed with a lock error carrying a path), the dialog
    shows the Git tab with the lock-file error for that path above the form,
    the form holding every draft as the user left it, and the footer with
    its Save button. Once the lock file is deleted, the same tab shows
    without the error, drafts unchanged. *)
Theorem lock_conflict_shows_recovery world p s c e lockFilePath darwin :
  failed (onSave world p s []).2 c e →
  in_try_block c = true →
  isConfigFileLockError e = true →
  parseConfigLockFilePathFromError (result e) = Some lockFilePath →
  ∃ s',
    (onSave world p s []).1 = Ret s'
    ∧ tabSelected (render darwin p s') = Git
    ∧ activeTab (render darwin p s')
      = GitView (Some lockFilePath) (committerName s) (committerEmail s)
          (mergeToolName s) (useCustomMergeTool s) (mergeToolCommand s)
          (defaultBranch s) (props.dotComAccount p) (props.enterpriseAccount p)
    ∧ footer (render darwin p s')
      = Some {| okButtonText := "Save";
                okButtonDisabled :=
                  bool_decide (is_Some (disallowedCharactersMessage s)) |}
    ∧ activeTab (render darwin p (onLockFileDeleted s'))
      = GitView None (committerName s) (committerEmail s)
          (mergeToolName s) (useCustomMergeTool s) (mergeToolCommand s)
          (defaultBranch s) (props.dotComAccount p) (props.enterpriseAccount p).
Proof.
  intros Hfailed Htry Hlock Hpath. eexists. split.
  - by eapply lock_conflict_outcome.
  - split_and!; [done|done| |done].
    unfold render, renderFooter. cbn.
    by destruct (disallowedCharactersMessage s).
Qed.

(** The log of a save depends on the state through its plan and its
    settings only. *)
Lemma onSave_log_frame world p s1 s2 :
  plan p s1 = plan p s2 → settings s1 = settings s2 →
  (onSave world p s1 []).2 = (onSave world p s2 []).2.
Proof.
  intros Hplan Hsettings.
  cbv [onSave try_catch mbind M_bind mret M_ret].
  rewrite !onSave_try_plan, Hplan.
  destruct (call_all world (plan p s2) []) as [[[]|e] log].
  - rewrite !onSave_settings_plan, Hsettings.
    by destruct (call_all world (settings s2) log) as [[[]|e] log'].
  - unfold onSave_catch.
    destruct (isConfigFileLockError e);
      [destruct (parseConfigLockFilePathFromError (result e))|]; done.
Qed.

(** X8. A save that meets a locked configuration file stops at the failed
    call: its log ends there. Saving again once the lock file is deleted
    makes the calls a first save of the same drafts would make with the same
    answers: the conflict lost and added nothing. *)
Theorem retry_after_lock_conflict world p s c e lockFilePath :
  failed (onSave world p s []).2 c e →
  in_try_block c = true →
  isConfigFileLockError e = true →
  parseConfigLockFilePathFromError (result e) = Some lockFilePath →
  ∃ s',
    (onSave world p s []).1 = Ret s'
    ∧ (∃ before, (onSave world p s []).2 = oks before ++ [(c, Some e)])
    ∧ ∀ world',
        (onSave world' p (onLockFileDeleted s') []).2
        = (onSave world' p s []).2.
Proof.
  intros Hfailed Htry Hlock Hpath.
  destruct (lock_conflict_outcome world p s c e lockFilePath)
    as [Hout Hlog]; [done..|].
  eexists. split; [exact Hout|]. split; [exact Hlog|].
  intros world'. by apply onSave_log_frame.
Qed.

(** ** More on loading *)

Lemma plan_opened_nil p st editors shells :
  truthy (getGlobalConfigValue st "user.name") = true →
  truthy (getGlobalConfigValue st "user.email") = true →
  truthy (getGlobalConfigValue st "merge.tool") = true →
  plan p (opened p st editors shells) = [].
Proof.
  intros Hname Hemail Htool. apply elem_of_nil_inv. intros c Hin.
  pose proof (or_empty_truthy _ Hname) as Hname'.
  pose proof (or_empty_truthy _ Hemail) as Hemail'.
  pose proof (or_empty_truthy _ Htool) as Htool'.
  assert (Some (mergeToolCommand (opened p st editors shells))
          ≠ initialMergeToolCommand (opened p st editors shells) →
          mergeToolCommand (opened p st editors shells) = "") as Hcmd.
  { cbn. intros Hne.
    destruct (truthy (or_else (getGlobalConfigValue st "merge.tool")
                (λ name, getGlobalConfigValue st
                           ("mergetool." +:+ name +:+ ".cmd")) None))
      eqn:Hcmd.
    - by apply or_empty_truthy in Hcmd.
    - by apply or_empty_falsy in Hcmd. }
  assert (useCustomMergeTool (opened p st editors shells) = true) as Huse
    by done.
  apply elem_of_plan in Hin.
  each_case Hin; destruct_and?; unfold saved_when, changed in *;
    destruct_and?; destruct_or?;
    rewrite ?opened_committerName, ?opened_committerEmail, ?Hname, ?Hemail
      in *;
    try done; try congruence; auto.
Qed.

(** X9. Opening the dialog on a configuration where [user.name],
    [user.email] and [merge.tool] are set, and saving without an edit while
    no call fails, calls nothing but the settings of the application, each
    with the value the dialog was given in its properties, and then
    dismisses the dialog: no configuration write, no author refresh. *)
Theorem untouched_save_resends_settings p st editors shells :
  truthy (getGlobalConfigValue st "user.name") = true →
  truthy (getGlobalConfigValue st "user.email") = true →
  truthy (getGlobalConfigValue st "merge.tool") = true →
  calls (onSave reliable p (opened p st editors shells) []).2
  = [setStatsOptOut (props.optOutOfUsageTracking p) false;
     setConfirmRepoRemovalSetting (props.confirmRepositoryRemoval p);
     setConfirmForcePushSetting (props.confirmForcePush p)]
    ++ or_else (props.selectedExternalEditor p)
         (λ ed, [setExternalEditor ed]) []
    ++ [setShell (props.selectedShell p);
        setConfirmDiscardChangesSetting (props.confirmDiscardChanges p);
        setUncommittedChangesStrategySetting
          (props.uncommittedChangesStrategy p);
        onDismissed].
Proof.
  intros Hname Hemail Htool. rewrite onSave_reliable. cbn [snd].
  rewrite plan_opened_nil by done.
  rewrite calls_app, calls_oks. cbn [app]. unfold settings. cbn.
  by rewrite <-!app_assoc.
Qed.

(** X10. Loading reads the command of the merge tool only under the key of
    the configured tool. Without a [merge.tool] value, or with an empty one,
    the dialog opens with the custom tool off, an empty tool name, an empty
    command and no initial command, whatever [mergetool.*.cmd] keys the
    configuration holds. With [merge.tool] set to a non-empty name, the
    custom tool is on, the name is shown, and the initial command is the
    value of [mergetool.<name>.cmd], an absent value showing as the empty
    string. *)
Theorem merge_tool_loaded p st editors shells :
  (truthy (getGlobalConfigValue st "merge.tool") = false →
   mergeToolName (opened p st editors shells) = ""
   ∧ mergeToolCommand (opened p st editors shells) = ""
   ∧ initialMergeToolCommand (opened p st editors shells) = None
   ∧ useCustomMergeTool (opened p st editors shells) = false
   ∧ initialUseCustomMergeTool (opened p st editors shells) = false)
  ∧ (∀ name, getGlobalConfigValue st "merge.tool" = Some name → name ≠ "" →
       mergeToolName (opened p st editors shells) = name
       ∧ useCustomMergeTool (opened p st editors shells) = true
       ∧ initialUseCustomMergeTool (opened p st editors shells) = true
       ∧ initialMergeToolCommand (opened p st editors shells)
         = getGlobalConfigValue st ("mergetool." +:+ name +:+ ".cmd")
       ∧ mergeToolCommand (opened p st editors shells)
         = or_empty (getGlobalConfigValue st
                       ("mergetool." +:+ name +:+ ".cmd"))).
Proof.
  split.
  - intros Hfalsy. cbn. rewrite Hfalsy, (or_empty_falsy _ Hfalsy).
    destruct (getGlobalConfigValue st "merge.tool") as [name|]; [|done].
    cbn in *. by rewrite Hfalsy.
  - intros name Hname Hnonempty. cbn. rewrite Hname. cbn.
    by rewrite bool_decide_eq_true_2.
Qed.

(** ** What a save leaves in the configuration *)

Lemma commit_lookup_other st c (k : string) :
  key_of c ≠ Some k →
  getGlobalConfigValue (commit st c) k = getGlobalConfigValue st k.
Proof.
  unfold getGlobalConfigValue. destruct c; cbn; intros Hk; try done.
  - apply lookup_insert_ne. congruence.
  - apply lookup_delete_ne. congruence.
Qed.

Lemma commit_default_branch_other st c :
  (∀ v, c ≠ setDefaultBranch v) →
  getDefaultBranch (commit st c) = getDefaultBranch st.
Proof. destruct c; cbn; intros Hc; try done. by destruct (Hc branchName). Qed.

Lemma replay_snoc log c (r : Response) st :
  replay (log ++ [(c, r)]) st
  = match r with
    | None => commit (replay log st) c
    | Some _ => replay log st
    end.
Proof. rewrite replay_app. by destruct r. Qed.

(** A key no returned call writes keeps its value. *)
Lemma replay_lookup_untouched log st (k : string) :
  (∀ c, (c, None) ∈ log → key_of c ≠ Some k) →
  getGlobalConfigValue (replay log st) k = getGlobalConfigValue st k.
Proof.
  induction log as [|[c r] log IH] using rev_ind; [done|].
  intros Hno. rewrite replay_snoc.
  assert (getGlobalConfigValue (replay log st) k = getGlobalConfigValue st k)
    as <-.
  { apply IH. intros c' Hin. apply Hno. set_solver. }
  destruct r as [e|]; [done|]. apply commit_lookup_other, Hno. set_solver.
Qed.

(** A key whose returned writes all set the value [v], and which is
    written at least once, holds [v]. *)
Lemma replay_lookup_set log st (k v : string) :
  (∀ c, (c, None) ∈ log → key_of c = Some k → c = setGlobalConfigValue k v) →
  (setGlobalConfigValue k v, None) ∈ log →
  getGlobalConfigValue (replay log st) k = Some v.
Proof.
  induction log as [|[c r] log IH] using rev_ind; [set_solver|].
  intros Hall Hin. rewrite replay_snoc.
  assert ((setGlobalConfigValue k v, None) ∈ log →
          getGlobalConfigValue (replay log st) k = Some v) as IH'.
  { intros Hin'. apply IH; [|done]. intros c' Hc'. apply Hall. set_solver. }
  apply elem_of_app in Hin as [Hin|Hin].
  - destruct r as [e|]; [by apply IH'|].
    destruct (decide (key_of c = Some k)) as [Hk|Hk].
    + rewrite (Hall c) by (done || set_solver). cbn.
      unfold getGlobalConfigValue. cbn. apply lookup_insert_eq.
    + rewrite commit_lookup_other by done. by apply IH'.
  - apply list_elem_of_singleton in Hin. injection Hin as <- <-.
    unfold getGlobalConfigValue. cbn. apply lookup_insert_eq.
Qed.

Lemma replay_default_branch_set log st (v : string) :
  (∀ v', (setDefaultBranch v', None) ∈ log → v' = v) →
  (setDefaultBranch v, None) ∈ log →
  getDefaultBranch (replay log st) = v.
Proof.
  induction log as [|[c r] log IH] using rev_ind; [set_solver|].
  intros Hall Hin. rewrite replay_snoc.
  assert ((setDefaultBranch v, None) ∈ log →
          getDefaultBranch (replay log st) = v) as IH'.
  { intros Hin'. apply IH; [|done]. intros v' Hv'. apply Hall. set_solver. }
  apply elem_of_app in Hin as [Hin|Hin].
  - destruct r as [e|]; [by apply IH'|].
    destruct c; try by (rewrite commit_default_branch_other; [apply IH'|]).
    cbn. apply Hall. set_solver.
  - apply list_elem_of_singleton in Hin. by injection Hin as <- <-.
Qed.

(** The calls of a save that write a key of the configuration. *)
Lemma saved_key_writes p s c (k : string) :
  c ∈ plan p s ++ settings s ++ [onDismissed] → key_of c = Some k →
  (c = setGlobalConfigValue "user.name" (committerName s)
   ∧ changed CommitterName p s)
  ∨ (c = setGlobalConfigValue "user.email" (committerEmail s)
     ∧ changed CommitterEmail p s)
  ∨ (c = setGlobalConfigValue "merge.tool" (mergeToolName s)
     ∧ saved_when MergeToolName p s)
  ∨ (c = setGlobalConfigValue
           ("mergetool." +:+ mergeToolName s +:+ ".cmd") (mergeToolCommand s)
     ∧ saved_when MergeToolCommand p s)
  ∨ ((c = removeGlobalConfigValue "merge.tool"
      ∨ c = removeGlobalConfigValue
              ("mergetool" +:+ to_js_string (initialMergeToolName s)
               +:+ ".cmd"))
     ∧ saved_when UseCustomMergeTool p s).
Proof.
  rewrite !elem_of_app, elem_of_plan, elem_of_settings,
    list_elem_of_singleton.
  intros Hin Hk. each_case Hin; destruct_and?; subst;
    try discriminate Hk; auto 10.
  - match goal with H : ∃ _, _ |- _ => destruct H as (?&?&->) end.
    discriminate Hk.
  - match goal with H : ∃ _, _ |- _ => destruct H as (?&?&?&->) end.
    discriminate Hk.
Qed.

Lemma not_changed (a : string) (b : option string) :
  ¬ Some a ≠ b → b = Some a.
Proof. intros Hn. by destruct (decide (Some a = b)). Qed.

(** X11. After a save in which no call failed, of a dialog whose initial
    name and email are those of the configuration, the configuration holds
    the drafted committer name under [user.name] and the drafted committer
    email under [user.email]. *)
Theorem saved_identity_is_stored world p s st :
  (∀ c e, ¬ failed (onSave world p s []).2 c e) →
  initialCommitterName s = getGlobalConfigValue st "user.name" →
  initialCommitterEmail s = getGlobalConfigValue st "user.email" →
  getGlobalConfigValue (replay (onSave world p s []).2 st) "user.name"
  = Some (committerName s)
  ∧ getGlobalConfigValue (replay (onSave world p s []).2 st) "user.email"
    = Some (committerEmail s).
Proof.
  intros Hno Hname Hemail. rewrite (onSave_no_failure world p s Hno).
  cbn [snd]. change [(onDismissed, None)] with (oks [onDismissed]).
  rewrite <-oks_app, <-app_assoc.
  assert (∀ c k, (c, None) ∈ oks (plan p s ++ settings s ++ [onDismissed]) →
            key_of c = Some k →
            (k = "user.name" →
             c = setGlobalConfigValue "user.name" (committerName s)
             ∧ changed CommitterName p s)
            ∧ (k = "user.email" →
               c = setGlobalConfigValue "user.email" (committerEmail s)
               ∧ changed CommitterEmail p s)) as Hwrites.
  { intros c k [_ Hin]%elem_of_oks Hk.
    destruct (saved_key_writes p s c k Hin Hk) as [Hc|[Hc|[Hc|[Hc|Hc]]]];
      destruct Hc as [Hc ?]; try destruct Hc as [Hc|Hc]; subst c;
      injection Hk as <-; split; intros Heq; try done;
      cbv [String.append] in Heq; discriminate Heq. }
  split.
  - destruct (decide (changed CommitterName p s)) as [Hc|Hc].
    + apply replay_lookup_set.
      * intros c Hin Hk. by apply (Hwrites c "user.name").
      * apply elem_of_oks. split; [done|].
        rewrite !elem_of_app, elem_of_plan. auto.
    + rewrite replay_lookup_untouched.
      * rewrite <-Hname. by apply not_changed.
      * intros c Hin Hk. by destruct (Hwrites c "user.name" Hin Hk) as [[] _].
  - destruct (decide (changed CommitterEmail p s)) as [Hc|Hc].
    + apply replay_lookup_set.
      * intros c Hin Hk. by apply (Hwrites c "user.email").
      * apply elem_of_oks. split; [done|].
        rewrite !elem_of_app, elem_of_plan. auto.
    + rewrite replay_lookup_untouched.
      * rewrite <-Hemail. by apply not_changed.
      * intros c Hin Hk. by destruct (Hwrites c "user.email" Hin Hk) as [_ []].
Qed.

(** X12. After a save in which no call failed, of a dialog whose initial
    default branch is the stored one, the stored default branch is the
    drafted name, unless the draft is empty: then it is the one stored
    before. *)
Theorem saved_default_branch_is_stored world p s st :
  (∀ c e, ¬ failed (onSave world p s []).2 c e) →
  initialDefaultBranch s = Some (getDefaultBranch st) →
  getDefaultBranch (replay (onSave world p s []).2 st)
  = if bool_decide (defaultBranch s = "") then getDefaultBranch st
    else defaultBranch s.
Proof.
  intros Hno Hinit. rewrite (onSave_no_failure world p s Hno). cbn [snd].
  change [(onDismissed, None)] with (oks [onDismissed]).
  rewrite <-oks_app, <-app_assoc.
  assert (∀ v, (setDefaultBranch v, None)
               ∈ oks (plan p s ++ settings s ++ [onDismissed]) →
               v = defaultBranch s ∧ saved_when DefaultBranch p s) as Hwrites.
  { intros v [_ Hin]%elem_of_oks.
    rewrite !elem_of_app, elem_of_plan, elem_of_settings,
      list_elem_of_singleton in Hin.
    each_case Hin; destruct_and?; try discriminate;
      try match goal with
          | H : ∃ _, _ |- _ => destruct H as (?&?&?); destruct_and?
          end;
      try discriminate;
      try match goal with
          | H : _ ∨ _ |- _ => destruct H; discriminate
          end.
    match goal with
    | H : setDefaultBranch _ = _ |- _ => injection H as ->
    end. done. }
  destruct (decide (saved_when DefaultBranch p s)) as [Hwhen|Hwhen].
  - destruct Hwhen as [Hne Hc]. rewrite bool_decide_eq_false_2 by done.
    apply replay_default_branch_set.
    + intros v Hin. by destruct (Hwrites v Hin).
    + apply elem_of_oks. split; [done|].
      rewrite !elem_of_app, elem_of_plan. left. do 3 right. left. done.
  - rewrite replay_default_branch.
    + case_bool_decide as Hempty; [done|].
      destruct (decide (Some (defaultBranch s) = initialDefaultBranch s))
        as [Heq|Hne]; [congruence|].
      destruct Hwhen. by split.
    + intros v Hin. by destruct (Hwrites v Hin).
Qed.

(** X13. After a save in which no call failed, with the custom merge tool
    turned off and one of the three merge-tool fields changed, the
    configuration has no [merge.tool]: the key is removed after any write
    of it. *)
Theorem custom_tool_off_removes_tool world p s st :
  (∀ c e, ¬ failed (onSave world p s []).2 c e) →
  useCustomMergeTool s = false →
  changed UseCustomMergeTool p s ∨ changed MergeToolName p s
  ∨ changed MergeToolCommand p s →
  getGlobalConfigValue (replay (onSave world p s []).2 st) "merge.tool" = None.
Proof.
  intros Hno Hoff Hchanged. rewrite (onSave_no_failure world p s Hno).
  cbn [snd].
  assert (∃ front,
            plan p s
            = front ++ [removeGlobalConfigValue "merge.tool"]
              ++ [removeGlobalConfigValue
                    ("mergetool" +:+ to_js_string (initialMergeToolName s)
                     +:+ ".cmd")]) as [front Hplan].
  { unfold plan.
    rewrite (bool_decide_eq_true_2 (useCustomMergeTool s = false)) by done.
    assert (bool_decide (useCustomMergeTool s ≠ initialUseCustomMergeTool s)
            || strict_ne (mergeToolName s) (initialMergeToolName s)
            || strict_ne (mergeToolCommand s) (initialMergeToolCommand s)
            = true) as ->.
    { rewrite !orb_true_iff, !strict_ne_true, bool_decide_eq_true.
      unfold changed in Hchanged. tauto. }
    eexists. rewrite !app_assoc.
    change [removeGlobalConfigValue "merge.tool";
            removeGlobalConfigValue
              ("mergetool" +:+ to_js_string (initialMergeToolName s)
               +:+ ".cmd")]
      with ([removeGlobalConfigValue "merge.tool"]
            ++ [removeGlobalConfigValue
                  ("mergetool" +:+ to_js_string (initialMergeToolName s)
                   +:+ ".cmd")]).
    rewrite !app_assoc. reflexivity. }
  rewrite Hplan. change [(onDismissed, None)] with (oks [onDismissed]).
  rewrite <-!app_assoc, !oks_app, !replay_app.
  rewrite (replay_lookup_untouched (oks [onDismissed])).
  2: { intros c Hin. apply list_elem_of_singleton in Hin.
       by injection Hin as ->. }
  rewrite (replay_lookup_untouched (oks (settings s))).
  2: { intros c [_ Hin]%elem_of_oks. apply elem_of_settings in Hin.
       each_case Hin; try destruct Hin as (?&?&?&Hin); by subst. }
  rewrite (replay_lookup_untouched (oks [_])).
  2: { intros c Hin. apply list_elem_of_singleton in Hin. injection Hin as ->.
       intros Hk. injection Hk as Hkey.
       cbv [String.append] in Hkey. discriminate Hkey. }
  unfold getGlobalConfigValue. cbn. apply lookup_delete_eq.
Qed.

(** X14. After a save in which no call failed, with the custom merge tool
    on, a non-empty drafted tool name and the initial name that of the
    configuration: [merge.tool] holds the drafted name. A changed, non-empty
    command is stored under [mergetool.<drafted name>.cmd]. An unchanged
    command is not written: the value under [mergetool.<drafted name>.cmd]
    is what it was, so that renaming the tool does not carry its command
    over to the new name. *)
Theorem custom_tool_on_is_stored world p s st :
  (∀ c e, ¬ failed (onSave world p s []).2 c e) →
  useCustomMergeTool s = true →
  mergeToolName s ≠ "" →
  initialMergeToolName s = getGlobalConfigValue st "merge.tool" →
  getGlobalConfigValue (replay (onSave world p s []).2 st) "merge.tool"
  = Some (mergeToolName s)
  ∧ (changed MergeToolCommand p s → mergeToolCommand s ≠ "" →
     getGlobalConfigValue (replay (onSave world p s []).2 st)
       ("mergetool." +:+ mergeToolName s +:+ ".cmd")
     = Some (mergeToolCommand s))
  ∧ (¬ changed MergeToolCommand p s →
     getGlobalConfigValue (replay (onSave world p s []).2 st)
       ("mergetool." +:+ mergeToolName s +:+ ".cmd")
     = getGlobalConfigValue st ("mergetool." +:+ mergeToolName s +:+ ".cmd")).
Proof.
  intros Hno Hon Hnonempty Hname. rewrite (onSave_no_failure world p s Hno).
  cbn [snd]. change [(onDismissed, None)] with (oks [onDismissed]).
  rewrite <-oks_app, <-app_assoc.
  assert (∀ c k, (c, None) ∈ oks (plan p s ++ settings s ++ [onDismissed]) →
            key_of c = Some k →
            (k = "merge.tool" →
             c = setGlobalConfigValue "merge.tool" (mergeToolName s)
             ∧ changed MergeToolName p s)
            ∧ (k = "mergetool." +:+ mergeToolName s +:+ ".cmd" →
               c = setGlobalConfigValue
                     ("mergetool." +:+ mergeToolName s +:+ ".cmd")
                     (mergeToolCommand s)
               ∧ changed MergeToolCommand p s)) as Hwrites.
  { intros c k [_ Hin]%elem_of_oks Hk.
    destruct (saved_key_writes p s c k Hin Hk) as [Hc|[Hc|[Hc|[Hc|Hc]]]];
      destruct Hc as [Hc Hwhen]; try destruct Hc as [Hc|Hc]; subst c;
      injection Hk as <-;
      try (destruct Hwhen as [Hoff _]; congruence);
      try destruct Hwhen as [_ Hwhen];
      split; intros Heq; try done;
      cbv [String.append] in Heq; discriminate Heq. }
  split; [|split].
  - destruct (decide (changed MergeToolName p s)) as [Hc|Hc].
    + apply replay_lookup_set.
      * intros c Hin Hk. by apply (Hwrites c "merge.tool").
      * apply elem_of_oks. split; [done|].
        rewrite !elem_of_app, elem_of_plan. left. do 5 right. left.
        by repeat split.
    + rewrite replay_lookup_untouched.
      * rewrite <-Hname. by apply not_changed.
      * intros c Hin Hk. by destruct (Hwrites c "merge.tool" Hin Hk) as [[] _].
  - intros Hc Hcmd. apply replay_lookup_set.
    + intros c Hin Hk. by apply (Hwrites c _ Hin Hk).
    + apply elem_of_oks. split; [done|].
      rewrite !elem_of_app, elem_of_plan. left. do 6 right. left.
      by repeat split.
  - intros Hc. apply replay_lookup_untouched.
    intros c Hin Hk. by destruct (Hwrites c _ Hin Hk) as [_ []].
Qed.

(** X15. Whatever the collaborators answer, a save leaves every key of
    the global configuration as it was, but for [user.name], [user.email],
    [merge.tool], [mergetool.<drafted tool name>.cmd] and the key it removes
    when the custom tool is off, [mergetool<initial tool name>.cmd]. *)
Theorem save_leaves_other_keys world p s st (k : string) :
  k ≠ "user.name" → k ≠ "user.email" → k ≠ "merge.tool" →
  k ≠ "mergetool." +:+ mergeToolName s +:+ ".cmd" →
  k ≠ "mergetool" +:+ to_js_string (initialMergeToolName s) +:+ ".cmd" →
  getGlobalConfigValue (replay (onSave world p s []).2 st) k
  = getGlobalConfigValue st k.
Proof.
  intros Hname Hemail Htool Hcmd Hremoved. apply replay_lookup_untouched.
  intros c Hin Hk.
  apply (saved_entry _ _ _ _ _ _ (onSave_saved _ _ _)) in Hin.
  assert (c ∈ plan p s ++ settings s ++ [onDismissed]) as Hc.
  { rewrite !elem_of_app, list_elem_of_singleton.
    destruct Hin as [?|[?|[?|[e ->]]]]; auto. discriminate Hk. }
  destruct (saved_key_writes p s c k Hc Hk) as [Hw|[Hw|[Hw|[Hw|Hw]]]];
    destruct Hw as [Hw _]; try destruct Hw as [Hw|Hw]; subst c;
    injection Hk as <-; done.
Qed.

(** A log whose calls all returned holds no failure. *)
Lemma no_failure_from_answers log :
  Forall (λ entry, entry.2 = None) log → ∀ c e, ¬ failed log c e.
Proof.
  unfold failed. intros Hall c e Hin.
  by apply (proj1 (Forall_forall _ _) Hall) in Hin.
Qed.

End Properties.

(** * The sample application *)

Section OnTheSample.
Existing Instance sample.

Ltac in_log := vm_compute; repeat constructor.

(** ** C1 *)

(** Clearing the default branch changes the field, and the save does not
    write it. *)
Lemma cleared_branch_changed_not_written : ¬ written_iff_changed.
Proof.
  intros Hall.
  destruct (Hall sample_props branch_cleared DefaultBranch) as [_ Hwritten].
  assert (written branch_cleared DefaultBranch
            (onSave reliable sample_props branch_cleared []).2 = true) as Hw.
  { apply Hwritten. cbn. discriminate. }
  vm_compute in Hw. discriminate Hw.
Qed.

(** A setting that did not change is written all the same. *)
Lemma unchanged_setting_written :
  written loaded ConfirmForcePush (onSave reliable sample_props loaded []).2
  = true
  ∧ ¬ changed ConfirmForcePush sample_props loaded.
Proof. split; [reflexivity|]. intros Hchanged. by apply Hchanged. Qed.

Lemma renamed_committer_written :
  saved_when CommitterName sample_props renamed
  ∧ written renamed CommitterName (onSave reliable sample_props renamed []).2
    = true.
Proof.
  assert (saved_when CommitterName sample_props renamed) as Hwhen.
  { cbn. discriminate. }
  split; [exact Hwhen|].
  exact (proj2 (proj2 (field_written_when reliable sample_props renamed
                         CommitterName)) Hwhen).
Defined.

(** ** C2 *)


(** ** C3 *)

Lemma cleared_branch_keeps_stored_one :
  defaultBranch branch_cleared = ""
  ∧ getDefaultBranch
      (replay (onSave reliable sample_props branch_cleared []).2 full_store)
    = "main".
Proof.
  split; [reflexivity|].
  apply (proj1 (default_branch_write_guard reliable sample_props
                  branch_cleared full_store)).
  reflexivity.
Defined.

(** ** C4 *)

(** The settings are written after the [try] statement: when one of them
    fails, nothing catches the error, the dialog stays and nothing is
    reported. *)
Lemma settings_failure_not_reported : ¬ every_failure_dismisses_once.
Proof.
  intros Hall.
  destruct (Hall settings_down sample_props loaded
              (setStatsOptOut false false) disk_full) as [Hdismissed _].
  - in_log.
  - reflexivity.
  - by left.
  - vm_compute in Hdismissed. discriminate Hdismissed.
Qed.

Lemma settings_failure_rejects :
  onSave settings_down sample_props loaded []
  = (Throw disk_full, [(setStatsOptOut false false, Some disk_full)]).
Proof. reflexivity. Qed.

Lemma write_failure_on_rename :
  failed (onSave broken_world sample_props renamed []).2
    (setGlobalConfigValue "user.name" "Mona Lisa") disk_full
  ∧ (onSave broken_world sample_props renamed []).1 = Ret renamed
  ∧ logged is_dismissal (onSave broken_world sample_props renamed []).2
    = [onDismissed]
  ∧ logged is_error_report (onSave broken_world sample_props renamed []).2
    = [postError disk_full]
  ∧ ∃ before,
      (onSave broken_world sample_props renamed []).2
      = oks before
        ++ [(setGlobalConfigValue "user.name" "Mona Lisa", Some disk_full);
            (onDismissed, None); (postError disk_full, None)].
Proof.
  assert (failed (onSave broken_world sample_props renamed []).2
            (setGlobalConfigValue "user.name" "Mona Lisa") disk_full)
    as Hfailed by in_log.
  split; [exact Hfailed|].
  apply (proj1 (guarded_failure_dismisses_once broken_world sample_props
                  renamed) _ _ Hfailed); [reflexivity|by left].
Defined.

(** ** C5 *)

(** Choosing a theme is sent to the dispatcher at once. *)
Lemma theme_applied_before_save : ¬ edits_write_nothing.
Proof.
  intros Hall.
  assert (logged is_write
            (handle_all [SelectedThemeChanged true] loaded []).2 = [])
    as Hnone.
  { apply Hall. by repeat constructor. }
  vm_compute in Hnone. discriminate Hnone.
Qed.

Lemma edits_before_save :
  Forall (λ a, is_field_edit a = true)
    [CommitterNameChanged "Mona Lisa"; DefaultBranchChanged "trunk";
     SelectedThemeChanged true]
  ∧ ∃ s',
      handle_all
        [CommitterNameChanged "Mona Lisa"; DefaultBranchChanged "trunk";
         SelectedThemeChanged true] loaded []
      = (Ret s', [(setSelectedTheme true, None)]).
Proof.
  assert (Forall (λ a, is_field_edit a = true)
            [CommitterNameChanged "Mona Lisa"; DefaultBranchChanged "trunk";
             SelectedThemeChanged true]) as Hedits
    by (repeat constructor).
  split; [exact Hedits|].
  exact (edits_stay_local_except_theme _ loaded [] Hedits).
Defined.

(** ** C6 *)

(** The promises of [refreshAuthor] and [setRepositoryIndicatorsEnabled] are
    rejected, and every write that follows them is made. *)
Lemma dropped_rejection_unnoticed :
  onSave dropped_rejected sample_props renamed_without_indicators []
  = (Ret renamed_without_indicators,
     oks [setGlobalConfigValue "user.name" "Mona Lisa";
          refreshAuthor "desktop";
          setRepositoryIndicatorsEnabled false;
          setStatsOptOut false false;
          setConfirmRepoRemovalSetting true;
          setConfirmForcePushSetting true;
          setExternalEditor "vim";
          setShell "bash";
          setConfirmDiscardChangesSetting true;
          setUncommittedChangesStrategySetting false;
          onDismissed]).
Proof. reflexivity. Qed.

Lemma rejected_write_does_not_stop_save : ¬ failure_stops_writes.
Proof.
  intros Hstops.
  assert (logged is_write
            (drop 3 (onSave dropped_rejected sample_props
                       renamed_without_indicators []).2) = []) as Hnone.
  { apply (Hstops dropped_rejected sample_props renamed_without_indicators
             (take 2 (onSave dropped_rejected sample_props
                        renamed_without_indicators []).2)
             (setRepositoryIndicatorsEnabled false) None _ disk_full);
      [reflexivity|reflexivity|by right]. }
  vm_compute in Hnone. discriminate Hnone.
Qed.

Lemma writes_stop_at_failure :
  (onSave broken_world sample_props renamed []).2
  = [] ++ (setGlobalConfigValue "user.name" "Mona Lisa", Some disk_full)
          :: [(onDismissed, None); (postError disk_full, None)]
  ∧ logged is_write [(onDismissed, None); (postError disk_full, None)] = [].
Proof.
  assert ((onSave broken_world sample_props renamed []).2
          = [] ++ (setGlobalConfigValue "user.name" "Mona Lisa",
                   Some disk_full)
                  :: [(onDismissed, None); (postError disk_full, None)])
    as Hsplit by reflexivity.
  split; [exact Hsplit|].
  exact (proj2 (proj1 (proj2 (writes_in_order_until_failure broken_world
                                sample_props renamed)) _ _ _ _ Hsplit)).
Defined.

(** ** C7 *)

(** Signed in and without identity in the configuration: the committer
    fields are prefilled from the account and differ from their shadows. *)
Lemma prefilled_fields_differ : ¬ loaded_fields_equal_shadows.
Proof.
  intros Hall.
  destruct (Hall signed_in_props anonymous_store ["vim"] ["bash"])
    as [[Hname _] _].
  vm_compute in Hname. discriminate Hname.
Qed.

Lemma prefilled_fields_saved :
  calls (onSave reliable signed_in_props
           (opened signed_in_props anonymous_store ["vim"] ["bash"]) []).2
  = [setGlobalConfigValue "user.name" "octocat";
     setGlobalConfigValue "user.email" "octocat@github.com";
     refreshAuthor "desktop";
     setStatsOptOut false false; setConfirmRepoRemovalSetting true;
     setConfirmForcePushSetting true; setExternalEditor "vim";
     setShell "bash"; setConfirmDiscardChangesSetting true;
     setUncommittedChangesStrategySetting false; onDismissed].
Proof. reflexivity. Qed.

Lemma full_configuration_saved_untouched :
  truthy (getGlobalConfigValue full_store "user.name") = true
  ∧ truthy (getGlobalConfigValue full_store "user.email") = true
  ∧ truthy (getGlobalConfigValue full_store "merge.tool") = true
  ∧ initialDefaultBranch loaded = Some "main"
  ∧ initialMergeToolCommand loaded = Some "meld $LOCAL $REMOTE"
  ∧ logged is_config_write (onSave broken_world sample_props loaded []).2 = [].
Proof.
  destruct (loaded_fields_mirror_shadows sample_props full_store
              ["vim"] ["bash"])
    as ((_ & _ & Hbranch & _ & Hcommand & _) & _ & _ & _ & _ & _ & Hquiet).
  split_and!; [reflexivity..|exact Hbranch| |].
  - apply (Hcommand "meld"); [reflexivity|discriminate].
  - apply Hquiet; reflexivity.
Defined.

(** ** C8 *)

Lemma octocat_prefilled :
  (is_Some (props.dotComAccount signed_in_props)
   ∨ is_Some (props.enterpriseAccount signed_in_props))
  ∧ ∃ a, account signed_in_props = Some a
         ∧ (getGlobalConfigValue bare_store "user.name" = None →
            committerName (opened signed_in_props bare_store ["vim"] ["bash"])
            = login a)
         ∧ (getGlobalConfigValue bare_store "user.email" = None →
            committerEmail (opened signed_in_props bare_store ["vim"] ["bash"])
            = or_empty (lookupPreferredEmail a)).
Proof.
  assert (is_Some (props.dotComAccount signed_in_props)
          ∨ is_Some (props.enterpriseAccount signed_in_props)) as Hacc.
  { left. by exists octocat. }
  split; [exact Hacc|].
  exact (proj1 (committer_prefilled_from_account signed_in_props bare_store
                  ["vim"] ["bash"]) Hacc).
Defined.

Lemma octocat_prefilled_values :
  committerName (opened signed_in_props bare_store ["vim"] ["bash"])
  = "octocat"
  ∧ committerEmail (opened signed_in_props bare_store ["vim"] ["bash"])
    = "octocat@github.com"
  ∧ committerName (opened sample_props bare_store ["vim"] ["bash"]) = ""
  ∧ committerEmail (opened sample_props bare_store ["vim"] ["bash"]) = "".
Proof. by repeat split. Qed.

(** ** C9 *)

Lemma changed_tool_written :
  (setGlobalConfigValue "merge.tool" "kdiff3", None)
  ∈ (onSave reliable sample_props tool_changed []).2
  ∧ ("merge.tool" = "merge.tool" →
     "kdiff3" = mergeToolName tool_changed ∧ mergeToolName tool_changed ≠ ""
     ∧ Some (mergeToolName tool_changed) ≠ initialMergeToolName tool_changed).
Proof.
  assert ((setGlobalConfigValue "merge.tool" "kdiff3", None)
          ∈ (onSave reliable sample_props tool_changed []).2) as Hin
    by in_log.
  split; [exact Hin|].
  exact (proj1 (merge_tool_write_guard reliable sample_props tool_changed
                  _ _ _ Hin)).
Defined.

(** ** C10 *)

(** C10. The custom merge tool is turned off in a dialog loaded on a
    configuration with [merge.tool = meld] and a command for it. The save
    removes [merge.tool], and then the key [mergetoolmeld.cmd], which does
    not exist: the command stays in the configuration under
    [mergetool.meld.cmd], the key the dialog read it from. *)
Theorem custom_tool_off_leaves_command :
  calls (onSave reliable sample_props tool_off []).2
  = [removeGlobalConfigValue "merge.tool";
     removeGlobalConfigValue "mergetoolmeld.cmd";
     setStatsOptOut false false; setConfirmRepoRemovalSetting true;
     setConfirmForcePushSetting true; setExternalEditor "vim";
     setShell "bash"; setConfirmDiscardChangesSetting true;
     setUncommittedChangesStrategySetting false; onDismissed]
  ∧ getGlobalConfigValue
      (replay (onSave reliable sample_props tool_off []).2 full_store)
      "merge.tool" = None
  ∧ getGlobalConfigValue
      (replay (onSave reliable sample_props tool_off []).2 full_store)
      "mergetool.meld.cmd" = Some "meld $LOCAL $REMOTE".
Proof. by repeat split. Qed.

(** ** Further properties *)

Ltac all_returned := apply no_failure_from_answers; vm_compute; repeat constructor.

Lemma rename_saved_and_dismissed :
  (∀ c e, ¬ failed (onSave reliable sample_props renamed []).2 c e)
  ∧ onSave reliable sample_props renamed []
    = (Ret renamed,
       oks (plan sample_props renamed ++ settings renamed)
       ++ [(onDismissed, None)])
  ∧ logged is_dismissal (onSave reliable sample_props renamed []).2
    = [onDismissed]
  ∧ logged is_error_report (onSave reliable sample_props renamed []).2 = [].
Proof.
  assert (∀ c e, ¬ failed (onSave reliable sample_props renamed []).2 c e)
    as Hno by all_returned.
  split; [exact Hno|].
  exact (save_without_failure reliable sample_props renamed Hno).
Defined.

Lemma rename_refreshes_author :
  (refreshAuthor "desktop", None)
  ∈ (onSave reliable sample_props renamed []).2
  ∧ props.repository sample_props = Some "desktop"
  ∧ ((setGlobalConfigValue "user.name" (committerName renamed), None)
     ∈ (onSave reliable sample_props renamed []).2
     ∨ (setGlobalConfigValue "user.email" (committerEmail renamed), None)
       ∈ (onSave reliable sample_props renamed []).2).
Proof.
  assert ((refreshAuthor "desktop", None)
          ∈ (onSave reliable sample_props renamed []).2) as Hin by in_log.
  split; [exact Hin|].
  exact (author_refreshed_after_identity_write reliable sample_props renamed
           _ _ Hin).
Defined.

Lemma empty_name_blocks_save :
  Forall (λ a, is_name_edit a = false)
    [CommitterEmailChanged "mona@example.com"; TabClicked Advanced]
  ∧ ∃ s' log',
      handle_all
        [CommitterNameChanged ""; CommitterEmailChanged "mona@example.com";
         TabClicked Advanced] loaded []
      = (Ret s', log')
      ∧ committerName s' = ""
      ∧ renderDisallowedCharactersError s' = Some "Name is invalid"
      ∧ ∀ f, renderFooter s' = Some f → okButtonDisabled f = true.
Proof.
  assert (Forall (λ a, is_name_edit a = false)
            [CommitterEmailChanged "mona@example.com"; TabClicked Advanced])
    as Hacts by (repeat constructor).
  split; [exact Hacts|].
  exact (invalid_name_disables_save "" _ loaded [] Hacts).
Defined.

Lemma lock_conflict_recovery_shown :
  failed (onSave locked_world sample_props renamed []).2
    (setGlobalConfigValue "user.name" "Mona Lisa") lock_error
  ∧ ∃ s',
      (onSave locked_world sample_props renamed []).1 = Ret s'
      ∧ tabSelected (render false sample_props s') = Git
      ∧ activeTab (render false sample_props s')
        = GitView (Some "/home/mona/.gitconfig.lock") "Mona Lisa"
            "mona@github.com" "meld" true "meld $LOCAL $REMOTE" "main"
            None None
      ∧ footer (render false sample_props s')
        = Some {| okButtonText := "Save";
                  okButtonDisabled :=
                    bool_decide
                      (is_Some (disallowedCharactersMessage renamed)) |}
      ∧ activeTab (render false sample_props (onLockFileDeleted s'))
        = GitView None "Mona Lisa" "mona@github.com" "meld" true
            "meld $LOCAL $REMOTE" "main" None None.
Proof.
  assert (failed (onSave locked_world sample_props renamed []).2
            (setGlobalConfigValue "user.name" "Mona Lisa") lock_error)
    as Hfailed by in_log.
  split; [exact Hfailed|].
  apply (lock_conflict_shows_recovery locked_world sample_props renamed
           _ _ _ false Hfailed); reflexivity.
Defined.

Lemma retry_after_unlock :
  failed (onSave locked_world sample_props renamed []).2
    (setGlobalConfigValue "user.name" "Mona Lisa") lock_error
  ∧ ∃ s',
      (onSave locked_world sample_props renamed []).1 = Ret s'
      ∧ (∃ before,
           (onSave locked_world sample_props renamed []).2
           = oks before
             ++ [(setGlobalConfigValue "user.name" "Mona Lisa",
                  Some lock_error)])
      ∧ ∀ world',
          (onSave world' sample_props (onLockFileDeleted s') []).2
          = (onSave world' sample_props renamed []).2.
Proof.
  assert (failed (onSave locked_world sample_props renamed []).2
            (setGlobalConfigValue "user.name" "Mona Lisa") lock_error)
    as Hfailed by in_log.
  split; [exact Hfailed|].
  apply (retry_after_lock_conflict locked_world sample_props renamed
           _ _ "/home/mona/.gitconfig.lock" Hfailed); reflexivity.
Defined.

Lemma untouched_full_configuration :
  truthy (getGlobalConfigValue full_store "user.name") = true
  ∧ truthy (getGlobalConfigValue full_store "user.email") = true
  ∧ truthy (getGlobalConfigValue full_store "merge.tool") = true
  ∧ calls (onSave reliable sample_props
             (opened sample_props full_store ["vim"] ["bash"]) []).2
    = [setStatsOptOut false false; setConfirmRepoRemovalSetting true;
       setConfirmForcePushSetting true; setExternalEditor "vim";
       setShell "bash"; setConfirmDiscardChangesSetting true;
       setUncommittedChangesStrategySetting false; onDismissed].
Proof.
  split_and!; [reflexivity..|].
  apply (untouched_save_resends_settings sample_props full_store
           ["vim"] ["bash"]); reflexivity.
Defined.

Lemma bare_configuration_has_no_tool :
  truthy (getGlobalConfigValue bare_store "merge.tool") = false
  ∧ mergeToolName (opened sample_props bare_store ["vim"] ["bash"]) = ""
  ∧ mergeToolCommand (opened sample_props bare_store ["vim"] ["bash"]) = ""
  ∧ initialMergeToolCommand (opened sample_props bare_store ["vim"] ["bash"])
    = None
  ∧ useCustomMergeTool (opened sample_props bare_store ["vim"] ["bash"])
    = false
  ∧ initialUseCustomMergeTool (opened sample_props bare_store ["vim"] ["bash"])
    = false.
Proof.
  split; [reflexivity|].
  apply (proj1 (merge_tool_loaded sample_props bare_store ["vim"] ["bash"])).
  reflexivity.
Defined.

Lemma renamed_identity_stored :
  (∀ c e, ¬ failed (onSave reliable sample_props renamed []).2 c e)
  ∧ initialCommitterName renamed = getGlobalConfigValue full_store "user.name"
  ∧ initialCommitterEmail renamed
    = getGlobalConfigValue full_store "user.email"
  ∧ getGlobalConfigValue
      (replay (onSave reliable sample_props renamed []).2 full_store)
      "user.name" = Some "Mona Lisa"
  ∧ getGlobalConfigValue
      (replay (onSave reliable sample_props renamed []).2 full_store)
      "user.email" = Some "mona@github.com".
Proof.
  assert (∀ c e, ¬ failed (onSave reliable sample_props renamed []).2 c e)
    as Hno by all_returned.
  split; [exact Hno|]. split; [reflexivity|]. split; [reflexivity|].
  apply (saved_identity_is_stored reliable sample_props renamed full_store
           Hno); reflexivity.
Defined.

Lemma cleared_branch_not_stored :
  (∀ c e, ¬ failed (onSave reliable sample_props branch_cleared []).2 c e)
  ∧ initialDefaultBranch branch_cleared = Some (getDefaultBranch full_store)
  ∧ getDefaultBranch
      (replay (onSave reliable sample_props branch_cleared []).2 full_store)
    = (if bool_decide (defaultBranch branch_cleared = "")
       then getDefaultBranch full_store else defaultBranch branch_cleared).
Proof.
  assert (∀ c e,
            ¬ failed (onSave reliable sample_props branch_cleared []).2 c e)
    as Hno by all_returned.
  split; [exact Hno|]. split; [reflexivity|].
  apply (saved_default_branch_is_stored reliable sample_props branch_cleared
           full_store Hno); reflexivity.
Defined.

Lemma tool_off_removes_tool :
  (∀ c e, ¬ failed (onSave reliable sample_props tool_off []).2 c e)
  ∧ useCustomMergeTool tool_off = false
  ∧ getGlobalConfigValue
      (replay (onSave reliable sample_props tool_off []).2 full_store)
      "merge.tool" = None.
Proof.
  assert (∀ c e, ¬ failed (onSave reliable sample_props tool_off []).2 c e)
    as Hno by all_returned.
  split; [exact Hno|]. split; [reflexivity|].
  apply (custom_tool_off_removes_tool reliable sample_props tool_off
           full_store Hno); [reflexivity|].
  left. cbn. discriminate.
Defined.

Lemma tool_renamed_without_command :
  (∀ c e, ¬ failed (onSave reliable sample_props tool_changed []).2 c e)
  ∧ getGlobalConfigValue
      (replay (onSave reliable sample_props tool_changed []).2 full_store)
      "merge.tool" = Some "kdiff3"
  ∧ (¬ changed MergeToolCommand sample_props tool_changed →
     getGlobalConfigValue
       (replay (onSave reliable sample_props tool_changed []).2 full_store)
       ("mergetool." +:+ mergeToolName tool_changed +:+ ".cmd")
     = getGlobalConfigValue full_store
         ("mergetool." +:+ mergeToolName tool_changed +:+ ".cmd")).
Proof.
  assert (∀ c e,
            ¬ failed (onSave reliable sample_props tool_changed []).2 c e)
    as Hno by all_returned.
  split; [exact Hno|].
  destruct (custom_tool_on_is_stored reliable sample_props tool_changed
              full_store Hno) as (Htool & _ & Hcmd);
    [reflexivity|discriminate|reflexivity|].
  split; [exact Htool|exact Hcmd].
Defined.

Lemma editor_key_untouched :
  getGlobalConfigValue
    (replay (onSave broken_world sample_props renamed []).2 full_store)
    "core.editor"
  = getGlobalConfigValue full_store "core.editor".
Proof.
  apply (save_leaves_other_keys broken_world sample_props renamed full_store
           "core.editor"); discriminate.
Defined.

End OnTheSample.
